(** * CineMatch: the storage layer and the TMDB sync routes

    A shallow embedding of [server/storage.ts] (class [DatabaseStorage]),
    of the tables and the filter type of [shared/schema.ts], of the
    [/api/tmdb/sync/...], search and preferences handlers of
    [server/routes.ts], and of the trailer lookup of [server/services/tmdb.ts].

    Conventions of the embedding.
    - A table is the list of its rows in insertion order together with the
      next value of its [serial] sequence.
    - A nullable column is an [option]; a [decimal] column and a fractional
      JavaScript number are exact rationals ([Q]); integer-valued numbers
      (ids, years, minutes, page, limit) are [Z].
    - A [where] clause keeps the rows on which the condition evaluates to
      TRUE.  The conditions built by the code use only comparisons, AND and
      OR, so "evaluates to TRUE" is computed by a boolean function in which
      a comparison on a NULL column is [false].
    - A statement either succeeds or is rejected by the database; a
      rejected statement leaves the rows of every table as they were.
    - The database is PostgreSQL (the tables are [pgTable]s).  It has no
      function [JSON_SEARCH] and no function [YEAR]: a statement that
      calls one is rejected.
    - The query builder writes a LIMIT clause only for a limit that is not
      negative and an OFFSET clause only for an offset that is not 0; the
      database rejects a negative OFFSET.
    - SQL leaves the order of rows with equal sort keys open; [orderBy]
      keeps them in table order, which is one of the orders the database
      may choose. *)

From Stdlib Require Import List ZArith QArith Bool String Ascii Lia.
From Stdlib Require Import Sorting.Sorted Sorting.Permutation.
Import ListNotations.

Local Open Scope string_scope.
Local Open Scope list_scope.
Local Open Scope Z_scope.

(** ** Results and the storage monad *)

Inductive DbError : Type :=
| UniqueViolation      (* duplicate key value violates unique constraint *)
| NoArbiterIndex       (* no unique constraint matching ON CONFLICT *)
| NumericOverflow      (* numeric field overflow *)
| IntegerOutOfRange    (* value out of range for type integer *)
| UndefinedFunction    (* function ... does not exist *)
| NegativeOffset       (* OFFSET must not be negative *)
| FetchFailed.         (* the external API request threw *)

Inductive Result (A : Type) : Type :=
| Ok (a : A)
| Err (e : DbError).

Arguments Ok {A} a.
Arguments Err {A} e.

(** ** Rows of [shared/schema.ts] *)

Module Genre.
Record t : Type := mk { id : Z; name : string }.
End Genre.

Module Movie.
Record t : Type := mk {
    id : Z;                                (* serial, primary key *)
    tmdbId : Z;                            (* integer, unique, not null *)
    title : string;                        (* varchar, not null *)
    overview : option string;
    posterPath : option string;
    backdropPath : option string;
    releaseDate : option string;           (* varchar *)
    runtime : option Z;
    voteAverage : option Q;                (* decimal(3,1) *)
    voteCount : option Z;
    genres : option (list Genre.t);        (* jsonb *)
    originalLanguage : option string;
    adult : option bool;
    popularity : option Q;                 (* decimal(10,3) *)
    createdAt : option Z;
    updatedAt : option Z
  }.
End Movie.

Module Watchlist.
Record t : Type := mk {
    id : Z; userId : string; movieId : Z; createdAt : option Z
  }.
End Watchlist.

Module Favorite.
Record t : Type := mk {
    id : Z; userId : string; movieId : Z; createdAt : option Z
  }.
End Favorite.

Module Rating.
Record t : Type := mk {
    id : Z; userId : string; movieId : Z;
    rating : Q;                            (* decimal(2,1), not null *)
    createdAt : option Z; updatedAt : option Z
  }.
End Rating.

(** The database: the four tables used here, their sequences, and the
    clock read by [defaultNow()] and [new Date()]. *)
Record DB : Type := mkDB {
  movies : list Movie.t;       movies_seq : Z;
  watchlist : list Watchlist.t; watchlist_seq : Z;
  favorites : list Favorite.t;  favorites_seq : Z;
  ratings : list Rating.t;      ratings_seq : Z;
  now : Z
}.

Definition emptyDB : DB := mkDB [] 1 [] 1 [] 1 [] 1 0.

Definition M (A : Type) : Type := DB -> Result A * DB.

Definition ret {A} (a : A) : M A := fun db => (Ok a, db).
Definition throw {A} (e : DbError) : M A := fun db => (Err e, db).
Definition bind {A B} (m : M A) (k : A -> M B) : M B :=
  fun db => match m db with
            | (Ok a, db') => k a db'
            | (Err e, db') => (Err e, db')
            end.

Notation "x <- m ;; k" := (bind m (fun x => k))
  (at level 61, m at next level, right associativity).

(** ** Unique indexes declared by the schema

    [movies] has its primary key and [.unique()] on [tmdb_id]; [watchlist],
    [favorites] and [ratings] declare a [serial] primary key and nothing
    else. *)

Inductive Column : Type := ColId | ColTmdbId | ColUserId | ColMovieId.

Inductive Value : Type := VInt (z : Z) | VStr (s : string).

Definition Column_eqb (a b : Column) : bool :=
  match a, b with
  | ColId, ColId | ColTmdbId, ColTmdbId
  | ColUserId, ColUserId | ColMovieId, ColMovieId => true
  | _, _ => false
  end.

Definition Value_eqb (a b : Value) : bool :=
  match a, b with
  | VInt x, VInt y => x =? y
  | VStr x, VStr y => String.eqb x y
  | _, _ => false
  end.

Definition movies_unique : list (list Column) := [[ColId]; [ColTmdbId]].
Definition watchlist_unique : list (list Column) := [[ColId]].
Definition favorites_unique : list (list Column) := [[ColId]].
Definition ratings_unique : list (list Column) := [[ColId]].

Definition movie_col (m : Movie.t) (c : Column) : option Value :=
  match c with
  | ColId => Some (VInt (Movie.id m))
  | ColTmdbId => Some (VInt (Movie.tmdbId m))
  | _ => None
  end.

Definition watchlist_col (r : Watchlist.t) (c : Column) : option Value :=
  match c with
  | ColId => Some (VInt (Watchlist.id r))
  | ColUserId => Some (VStr (Watchlist.userId r))
  | ColMovieId => Some (VInt (Watchlist.movieId r))
  | _ => None
  end.

Definition favorite_col (r : Favorite.t) (c : Column) : option Value :=
  match c with
  | ColId => Some (VInt (Favorite.id r))
  | ColUserId => Some (VStr (Favorite.userId r))
  | ColMovieId => Some (VInt (Favorite.movieId r))
  | _ => None
  end.

Definition rating_col (r : Rating.t) (c : Column) : option Value :=
  match c with
  | ColId => Some (VInt (Rating.id r))
  | ColUserId => Some (VStr (Rating.userId r))
  | ColMovieId => Some (VInt (Rating.movieId r))
  | _ => None
  end.

Section UniqueIndexes.
Context {R : Type} (col : R -> Column -> option Value).

  (** Two rows collide on an index when they agree on each of its columns. *)
Definition sameOn (ix : list Column) (a b : R) : bool :=
    forallb (fun c => match col a c, col b c with
                      | Some x, Some y => Value_eqb x y
                      | _, _ => false
                      end) ix.

  (** The new row [a] violates one of the unique indexes [ixs]. *)
Definition violates (ixs : list (list Column)) (rows : list R) (a : R) : bool :=
    existsb (fun ix => existsb (sameOn ix a) rows) ixs.
End UniqueIndexes.

(** Index inference for [ON CONFLICT (target)]: some unique index has
    exactly the target's columns, in any order. *)
Definition sameColumns (a b : list Column) : bool :=
  forallb (fun c => existsb (Column_eqb c) b) a &&
  forallb (fun c => existsb (Column_eqb c) a) b.

Definition hasArbiter (target : list Column) (ixs : list (list Column)) : bool :=
  existsb (sameColumns target) ixs.

(** ** Values stored in [decimal(precision, scale)] columns

    The code writes a JavaScript number through [toString()]; the column
    keeps it rounded to [scale] decimal places (ties away from zero) and
    rejects a value with more than [precision - scale] integer digits. *)

Definition roundHalfAway (q : Q) : Z :=
  let n := Qnum q in
  let d := Z.pos (Qden q) in
  Z.sgn n * ((2 * Z.abs n + d) / (2 * d)).

Definition toDecimal (precision scale : Z) (q : Q) : Result Q :=
  let unit := 10 ^ scale in
  let r := roundHalfAway (q * inject_Z unit) in
  if Z.abs r <? 10 ^ precision
  then Ok (Qmake r (Z.to_pos unit))
  else Err NumericOverflow.

(** ** The filter type [MovieFilter] (zod schema [movieFilterSchema]) *)

Inductive RuntimeBucket : Type := any | under90 | from90to120 | over120.

Inductive SortBy : Type := popularity | rating | release_date | title.

Inductive SortOrder : Type := asc | desc.

Module MovieFilter.
Record t : Type := mk {
  genres : option (list Z);
  regions : option (list string);
  releaseYearFrom : option Z;
  releaseYearTo : option Z;
  ratingMin : option Q;
  ratingMax : option Q;
  runtime : option RuntimeBucket;
  ageRating : option (list string);
  sortBy : option SortBy;
  sortOrder : option SortOrder;
  page : Z;                                  (* default 1 *)
  limit : Z                                  (* default 20 *)
}.
End MovieFilter.

(** JavaScript truthiness of an optional number: [undefined] and [0] are
    falsy. *)
Definition truthyZ (o : option Z) : bool :=
  match o with Some z => negb (z =? 0) | None => false end.

Definition truthyQ (o : option Q) : bool :=
  match o with Some q => negb (Qeq_bool q 0) | None => false end.

(** [x || d] on numbers. *)
Definition orDefault (x d : Z) : Z := if x =? 0 then d else x.

(** ** SQL conditions built by [getMovies] *)

#[warnings="-register-all"]
Inductive SQL : Type :=
| JsonSearchGenreId (genreId : Z)
    (* JSON_SEARCH(genres, 'one', genreId, NULL, '$[*].id') IS NOT NULL *)
| YearReleaseDateGte (y : Z)        (* gte(YEAR(release_date), y) *)
| YearReleaseDateLte (y : Z)        (* lte(YEAR(release_date), y) *)
| VoteAverageGte (q : Q)            (* gte(vote_average, q.toString()) *)
| VoteAverageLte (q : Q)            (* lte(vote_average, q.toString()) *)
| RuntimeLt (n : Z)                 (* runtime < n *)
| RuntimeGt (n : Z)                 (* runtime > n *)
| RuntimeGte (n : Z)                (* gte(runtime, n) *)
| RuntimeLte (n : Z)                (* lte(runtime, n) *)
| and_ (cs : list SQL)
| or_ (cs : list SQL).

(** The condition calls a function the database does not have:
    [JSON_SEARCH] or [YEAR]. *)
Fixpoint undefinedFunction (c : SQL) : bool :=
  match c with
  | JsonSearchGenreId _ => true
  | YearReleaseDateGte _ => true
  | YearReleaseDateLte _ => true
  | and_ cs => existsb undefinedFunction cs
  | or_ cs => existsb undefinedFunction cs
  | _ => false
  end.

(** The condition evaluates to TRUE on the row.  A call of a function
    that does not exist has no value, so it is TRUE on no row; the
    statement that contains it is rejected as a whole (see [getMovies]). *)
Fixpoint holds (m : Movie.t) (c : SQL) : bool :=
  match c with
  | JsonSearchGenreId _ => false
  | YearReleaseDateGte _ => false
  | YearReleaseDateLte _ => false
  | VoteAverageGte q =>
      match Movie.voteAverage m with Some v => Qle_bool q v | None => false end
  | VoteAverageLte q =>
      match Movie.voteAverage m with Some v => Qle_bool v q | None => false end
  | RuntimeLt n =>
      match Movie.runtime m with Some r => r <? n | None => false end
  | RuntimeGt n =>
      match Movie.runtime m with Some r => n <? r | None => false end
  | RuntimeGte n =>
      match Movie.runtime m with Some r => n <=? r | None => false end
  | RuntimeLte n =>
      match Movie.runtime m with Some r => r <=? n | None => false end
  | and_ cs => forallb (holds m) cs
  | or_ cs => existsb (holds m) cs
  end.

Definition genreConditions (filters : MovieFilter.t) : list SQL :=
  match MovieFilter.genres filters with
  | Some gs =>
      if (0 <? Z.of_nat (List.length gs))
      then [or_ (map JsonSearchGenreId gs)]
      else []
  | None => []
  end.

Definition releaseYearFromConditions (filters : MovieFilter.t) : list SQL :=
  match MovieFilter.releaseYearFrom filters with
  | Some y => if truthyZ (Some y) then [YearReleaseDateGte y] else []
  | None => []
  end.

Definition releaseYearToConditions (filters : MovieFilter.t) : list SQL :=
  match MovieFilter.releaseYearTo filters with
  | Some y => if truthyZ (Some y) then [YearReleaseDateLte y] else []
  | None => []
  end.

Definition ratingMinConditions (filters : MovieFilter.t) : list SQL :=
  match MovieFilter.ratingMin filters with
  | Some q => if truthyQ (Some q) then [VoteAverageGte q] else []
  | None => []
  end.

Definition ratingMaxConditions (filters : MovieFilter.t) : list SQL :=
  match MovieFilter.ratingMax filters with
  | Some q => if truthyQ (Some q) then [VoteAverageLte q] else []
  | None => []
  end.

Definition runtimeConditions (filters : MovieFilter.t) : list SQL :=
  match MovieFilter.runtime filters with
  | Some under90 => [RuntimeLt 90]
  | Some from90to120 => [and_ [RuntimeGte 90; RuntimeLte 120]]
  | Some over120 => [RuntimeGt 120]
  | Some any => []
  | None => []
  end.

(** The array [conditions] after the six [if] blocks, in push order. *)
Definition conditions (filters : MovieFilter.t) : list SQL :=
  genreConditions filters ++
  releaseYearFromConditions filters ++
  releaseYearToConditions filters ++
  ratingMinConditions filters ++
  ratingMaxConditions filters ++
  runtimeConditions filters.

(** ** ORDER BY

    NULL sorts as larger than every value: last under [asc], first under
    [desc].  Text is compared byte by byte.  SQL leaves the order of rows
    with equal keys open; here they keep their table order. *)

Definition nullsLargest {A} (le : A -> A -> bool) (x y : option A) : bool :=
  match x, y with
  | _, None => true
  | None, Some _ => false
  | Some a, Some b => le a b
  end.

Definition ascending (by_ : SortBy) (a b : Movie.t) : bool :=
  match by_ with
  | rating => nullsLargest Qle_bool (Movie.voteAverage a) (Movie.voteAverage b)
  | release_date => nullsLargest String.leb (Movie.releaseDate a) (Movie.releaseDate b)
  | title => String.leb (Movie.title a) (Movie.title b)
  | popularity => nullsLargest Qle_bool (Movie.popularity a) (Movie.popularity b)
  end.

Definition ordering (by_ : SortBy) (order : SortOrder) (a b : Movie.t) : bool :=
  match order with
  | desc => ascending by_ b a
  | asc => ascending by_ a b
  end.

Fixpoint insertBy {A} (le : A -> A -> bool) (x : A) (l : list A) : list A :=
  match l with
  | [] => [x]
  | y :: l' => if le x y then x :: l else y :: insertBy le x l'
  end.

Fixpoint orderBy {A} (le : A -> A -> bool) (l : list A) : list A :=
  match l with
  | [] => []
  | x :: l' => insertBy le x (orderBy le l')
  end.

(** ** LIMIT and OFFSET

    [.limit(n)] adds a LIMIT clause when [n >= 0] and nothing otherwise. *)
Definition limitRows {A} (limit : Z) (rows : list A) : list A :=
  if limit <? 0 then rows else firstn (Z.to_nat limit) rows.

(** ** [DatabaseStorage.getMovies] *)

Definition whereRows (conds : list SQL) (rows : list Movie.t) : list Movie.t :=
  match conds with
  | [] => rows
  | _ :: _ => filter (fun m => holds m (and_ conds)) rows
  end.

Definition getMovies (filters : MovieFilter.t) : M (list Movie.t * nat) :=
  fun db =>
    let conds := conditions filters in
    let matching := whereRows conds (movies db) in
    let sortBy :=
      match MovieFilter.sortBy filters with Some s => s | None => popularity end in
    let sortOrder :=
      match MovieFilter.sortOrder filters with Some o => o | None => desc end in
    let ordered := orderBy (ordering sortBy sortOrder) matching in
    let page := orDefault (MovieFilter.page filters) 1 in
    let limit := orDefault (MovieFilter.limit filters) 20 in
    let offset := (page - 1) * limit in
    if existsb undefinedFunction conds then (Err UndefinedFunction, db)
    else if offset <? 0 then (Err NegativeOffset, db)
    else (Ok (limitRows limit (skipn (Z.to_nat offset) ordered),
              List.length matching), db).

(** ** Movie rows: [getMovieByTmdbId], [createMovie] *)

Module InsertMovie.
Record t : Type := mk {
  tmdbId : Z;
  title : string;
  overview : option string;
  posterPath : option string;
  backdropPath : option string;
  releaseDate : option string;
  runtime : option Z;
  voteAverage : option Q;
  voteCount : option Z;
  genres : option (list Genre.t);
  originalLanguage : option string;
  adult : option bool;
  popularity : option Q
}.
End InsertMovie.

Definition setMovies (rows : list Movie.t) (seq : Z) (db : DB) : DB :=
  mkDB rows seq (watchlist db) (watchlist_seq db) (favorites db) (favorites_seq db)
       (ratings db) (ratings_seq db) (now db).

Definition setWatchlist (rows : list Watchlist.t) (seq : Z) (db : DB) : DB :=
  mkDB (movies db) (movies_seq db) rows seq (favorites db) (favorites_seq db)
       (ratings db) (ratings_seq db) (now db).

Definition setFavorites (rows : list Favorite.t) (seq : Z) (db : DB) : DB :=
  mkDB (movies db) (movies_seq db) (watchlist db) (watchlist_seq db) rows seq
       (ratings db) (ratings_seq db) (now db).

Definition setRatings (rows : list Rating.t) (seq : Z) (db : DB) : DB :=
  mkDB (movies db) (movies_seq db) (watchlist db) (watchlist_seq db)
       (favorites db) (favorites_seq db) rows seq (now db).

(** [const [movie] = await db.select().from(movies).where(eq(tmdbId, ...))] *)
Definition getMovieByTmdbId (tmdbId : Z) : M (option Movie.t) :=
  fun db => (Ok (find (fun m => Movie.tmdbId m =? tmdbId) (movies db)), db).

Definition optDecimal (precision scale : Z) (o : option Q) : Result (option Q) :=
  match o with
  | None => Ok None
  | Some q => match toDecimal precision scale q with
              | Ok d => Ok (Some d)
              | Err e => Err e
              end
  end.

(** The value fits an [integer] column. *)
Definition int4 (z : Z) : bool :=
  (-2147483648 <=? z) && (z <=? 2147483647).

Definition optInt4 (o : option Z) : bool :=
  match o with Some z => int4 z | None => true end.

(** A plain [insert ... returning].  A value that does not fit its column
    is rejected before the row is formed; a duplicate key is rejected
    after the row has taken its id, so the sequence has moved on. *)
Definition createMovie (movie : InsertMovie.t) : M Movie.t :=
  fun db =>
    if negb (int4 (InsertMovie.tmdbId movie) &&
             optInt4 (InsertMovie.runtime movie) &&
             optInt4 (InsertMovie.voteCount movie))
    then (Err IntegerOutOfRange, db)
    else
    match optDecimal 3 1 (InsertMovie.voteAverage movie),
          optDecimal 10 3 (InsertMovie.popularity movie) with
    | Ok va, Ok pop =>
        let row :=
          Movie.mk (movies_seq db) (InsertMovie.tmdbId movie)
            (InsertMovie.title movie) (InsertMovie.overview movie)
            (InsertMovie.posterPath movie) (InsertMovie.backdropPath movie)
            (InsertMovie.releaseDate movie) (InsertMovie.runtime movie)
            va (InsertMovie.voteCount movie) (InsertMovie.genres movie)
            (InsertMovie.originalLanguage movie)
            (match InsertMovie.adult movie with
             | Some b => Some b
             | None => Some false
             end)
            pop (Some (now db)) (Some (now db)) in
        if violates movie_col movies_unique (movies db) row
        then (Err UniqueViolation,
              setMovies (movies db) (movies_seq db + 1) db)
        else (Ok row, setMovies (movies db ++ [row]) (movies_seq db + 1) db)
    | Err e, _ => (Err e, db)
    | _, Err e => (Err e, db)
    end.

(** ** Watchlist *)

Definition watchlistKey (userId : string) (movieId : Z) (r : Watchlist.t) : bool :=
  String.eqb (Watchlist.userId r) userId && (Watchlist.movieId r =? movieId).

(** [insert(watchlist).values({userId, movieId}).onConflictDoNothing()
    .returning()]: the row is skipped when it collides with an existing row
    on a unique index of the table; [returning] is then empty. *)
Definition addToWatchlist (userId : string) (movieId : Z) : M (option Watchlist.t) :=
  fun db =>
    let row := Watchlist.mk (watchlist_seq db) userId movieId (Some (now db)) in
    if violates watchlist_col watchlist_unique (watchlist db) row
    then (Ok None, setWatchlist (watchlist db) (watchlist_seq db + 1) db)
    else (Ok (Some row),
          setWatchlist (watchlist db ++ [row]) (watchlist_seq db + 1) db).

Definition removeFromWatchlist (userId : string) (movieId : Z) : M unit :=
  fun db =>
    (Ok tt,
     setWatchlist
       (filter (fun r => negb (watchlistKey userId movieId r)) (watchlist db))
       (watchlist_seq db) db).

Definition isInWatchlist (userId : string) (movieId : Z) : M bool :=
  fun db =>
    (Ok (match find (watchlistKey userId movieId) (watchlist db) with
         | Some _ => true
         | None => false
         end), db).

(** ** Favorites *)

Definition favoriteKey (userId : string) (movieId : Z) (r : Favorite.t) : bool :=
  String.eqb (Favorite.userId r) userId && (Favorite.movieId r =? movieId).

Definition addToFavorites (userId : string) (movieId : Z) : M (option Favorite.t) :=
  fun db =>
    let row := Favorite.mk (favorites_seq db) userId movieId (Some (now db)) in
    if violates favorite_col favorites_unique (favorites db) row
    then (Ok None, setFavorites (favorites db) (favorites_seq db + 1) db)
    else (Ok (Some row),
          setFavorites (favorites db ++ [row]) (favorites_seq db + 1) db).

Definition removeFromFavorites (userId : string) (movieId : Z) : M unit :=
  fun db =>
    (Ok tt,
     setFavorites
       (filter (fun r => negb (favoriteKey userId movieId r)) (favorites db))
       (favorites_seq db) db).

Definition isInFavorites (userId : string) (movieId : Z) : M bool :=
  fun db =>
    (Ok (match find (favoriteKey userId movieId) (favorites db) with
         | Some _ => true
         | None => false
         end), db).

(** ** Ratings *)

Definition ratingKey (userId : string) (movieId : Z) (r : Rating.t) : bool :=
  String.eqb (Rating.userId r) userId && (Rating.movieId r =? movieId).

Definition rateMovie_target : list Column := [ColUserId; ColMovieId].

(** [insert(ratings).values({userId, movieId, rating})
    .onConflictDoUpdate({ target: [userId, movieId], set: {rating,
    updatedAt} }).returning()] on a table whose unique indexes are [ixs].
    The rating is converted to [decimal(2,1)] when the statement is
    prepared.  The statement then needs a unique index on the target
    columns to arbitrate; with one, a colliding row is updated in place and
    otherwise the new row is inserted. *)
Definition upsertRating (ixs : list (list Column))
  (userId : string) (movieId : Z) (rating : Q) : M Rating.t :=
  fun db =>
    match toDecimal 2 1 rating with
    | Err e => (Err e, db)
    | Ok value =>
        if negb (hasArbiter rateMovie_target ixs)
        then (Err NoArbiterIndex, db)
        else
          let row :=
            Rating.mk (ratings_seq db) userId movieId value
                      (Some (now db)) (Some (now db)) in
          let set_ (r : Rating.t) :=
            Rating.mk (Rating.id r) (Rating.userId r) (Rating.movieId r)
                      value (Rating.createdAt r) (Some (now db)) in
          match find (sameOn rating_col rateMovie_target row) (ratings db) with
          | Some old =>
              (Ok (set_ old),
               setRatings
                 (map (fun r => if sameOn rating_col rateMovie_target row r
                                then set_ r else r) (ratings db))
                 (ratings_seq db + 1) db)
          | None =>
              if violates rating_col ixs (ratings db) row
              then (Err UniqueViolation, db)
              else (Ok row,
                    setRatings (ratings db ++ [row]) (ratings_seq db + 1) db)
          end
      end.

(** [DatabaseStorage.rateMovie], on the [ratings] table of the schema. *)
Definition rateMovie (userId : string) (movieId : Z) (rating : Q) : M Rating.t :=
  upsertRating ratings_unique userId movieId rating.

Definition getUserRating (userId : string) (movieId : Z) : M (option Rating.t) :=
  fun db => (Ok (find (ratingKey userId movieId) (ratings db)), db).

Definition getUserRatingRows (userId : string) (movieId : Z) (db : DB) : list Rating.t :=
  filter (ratingKey userId movieId) (ratings db).

(** ** The sync handlers of [routes.ts]

    The three handlers ([/api/tmdb/sync/popular], [.../trending],
    [.../bollywood]) run the same loop over the listing they fetched.  The
    external API is a parameter: a request either yields a value or throws
    ([None]). *)

Module TMDBMovie.
Record t : Type := mk {
  id : Z;
  title : string;
  overview : string;
  poster_path : option string;
  backdrop_path : option string;
  release_date : string;
  runtime : option Z;
  vote_average : Q;
  vote_count : Z;
  genres : list Genre.t;
  original_language : string;
  adult : bool;
  popularity : Q
}.
End TMDBMovie.

Module TMDBResponse.
Record t : Type := mk {
  page : Z;
  results : list TMDBMovie.t;
  total_pages : Z;
  total_results : Z
}.
End TMDBResponse.

Definition toInsertMovie (movieDetails : TMDBMovie.t) : InsertMovie.t :=
  InsertMovie.mk
    (TMDBMovie.id movieDetails)
    (TMDBMovie.title movieDetails)
    (Some (TMDBMovie.overview movieDetails))
    (TMDBMovie.poster_path movieDetails)
    (TMDBMovie.backdrop_path movieDetails)
    (Some (TMDBMovie.release_date movieDetails))
    (TMDBMovie.runtime movieDetails)
    (Some (TMDBMovie.vote_average movieDetails))
    (Some (TMDBMovie.vote_count movieDetails))
    (Some (TMDBMovie.genres movieDetails))
    (Some (TMDBMovie.original_language movieDetails))
    (Some (TMDBMovie.adult movieDetails))
    (Some (TMDBMovie.popularity movieDetails)).

Section Sync.
Variable getMovieDetails : Z -> option TMDBMovie.t.
Variable getPopularMovies : Z -> option TMDBResponse.t.
Variable getTrendingMovies : option TMDBResponse.t.
Variable discoverMovies : string -> string -> Z -> option TMDBResponse.t.

Definition fetched {A} (o : option A) : M A :=
  match o with Some a => ret a | None => throw FetchFailed end.

(** The body of [for (const tmdbMovie of tmdbMovies.results)]. *)
Definition syncOne (tmdbMovie : TMDBMovie.t) : M Movie.t :=
  movie <- getMovieByTmdbId (TMDBMovie.id tmdbMovie) ;;
  match movie with
  | Some m => ret m
  | None =>
      movieDetails <- fetched (getMovieDetails (TMDBMovie.id tmdbMovie)) ;;
      createMovie (toInsertMovie movieDetails)
  end.

Fixpoint syncLoop (results : list TMDBMovie.t) (syncedMovies : list Movie.t)
  : M (list Movie.t) :=
  match results with
  | [] => ret syncedMovies
  | tmdbMovie :: rest =>
      movie <- syncOne tmdbMovie ;;
      syncLoop rest (syncedMovies ++ [movie])
  end.

Definition syncListing (listing : option TMDBResponse.t) : M (list Movie.t * Z) :=
  tmdbMovies <- fetched listing ;;
  syncedMovies <- syncLoop (TMDBResponse.results tmdbMovies) [] ;;
  ret (syncedMovies, TMDBResponse.total_results tmdbMovies).

Definition syncPopular (page : Z) : M (list Movie.t * Z) :=
  syncListing (getPopularMovies page).

Definition syncTrending : M (list Movie.t * Z) :=
  syncListing getTrendingMovies.

Definition syncBollywood : M (list Movie.t * Z) :=
  syncListing (discoverMovies "hi" "popularity.desc" 1).
End Sync.

(** ** Views of [getMovies] used in the statements *)

(** The row satisfies every condition that [getMovies] pushed. *)
Definition whereClause (filters : MovieFilter.t) (m : Movie.t) : bool :=
  forallb (holds m) (conditions filters).

(** The rows counted by [countQuery]. *)
Definition matchingRows (filters : MovieFilter.t) (db : DB) : list Movie.t :=
  filter (whereClause filters) (movies db).

Definition effectivePage (filters : MovieFilter.t) : Z :=
  orDefault (MovieFilter.page filters) 1.

Definition effectiveLimit (filters : MovieFilter.t) : Z :=
  orDefault (MovieFilter.limit filters) 20.

Definition offsetOf (filters : MovieFilter.t) : Z :=
  (effectivePage filters - 1) * effectiveLimit filters.

Definition effectiveOrdering (filters : MovieFilter.t) : Movie.t -> Movie.t -> bool :=
  ordering
    (match MovieFilter.sortBy filters with Some s => s | None => popularity end)
    (match MovieFilter.sortOrder filters with Some o => o | None => desc end).

(** The filter has a genre list that is not empty or a release-year bound
    that is not 0: the fields whose conditions call [JSON_SEARCH] and
    [YEAR]. *)
Definition usesGenresOrYears (filters : MovieFilter.t) : bool :=
  match MovieFilter.genres filters with
  | Some (_ :: _) => true
  | _ => false
  end ||
  truthyZ (MovieFilter.releaseYearFrom filters) ||
  truthyZ (MovieFilter.releaseYearTo filters).

(** The matching rows in the order of the page query, before LIMIT and
    OFFSET. *)
Definition orderedRows (filters : MovieFilter.t) (db : DB) : list Movie.t :=
  orderBy (effectiveOrdering filters) (matchingRows filters db).

(** Filters that differ from [filters] in one field. *)
Definition withRegions (v : option (list string)) (f : MovieFilter.t) : MovieFilter.t :=
  MovieFilter.mk (MovieFilter.genres f) v (MovieFilter.releaseYearFrom f)
    (MovieFilter.releaseYearTo f) (MovieFilter.ratingMin f) (MovieFilter.ratingMax f)
    (MovieFilter.runtime f) (MovieFilter.ageRating f) (MovieFilter.sortBy f)
    (MovieFilter.sortOrder f) (MovieFilter.page f) (MovieFilter.limit f).

Definition withAgeRating (v : option (list string)) (f : MovieFilter.t) : MovieFilter.t :=
  MovieFilter.mk (MovieFilter.genres f) (MovieFilter.regions f)
    (MovieFilter.releaseYearFrom f) (MovieFilter.releaseYearTo f)
    (MovieFilter.ratingMin f) (MovieFilter.ratingMax f) (MovieFilter.runtime f) v
    (MovieFilter.sortBy f) (MovieFilter.sortOrder f) (MovieFilter.page f)
    (MovieFilter.limit f).

Definition withReleaseYearFrom (v : option Z) (f : MovieFilter.t) : MovieFilter.t :=
  MovieFilter.mk (MovieFilter.genres f) (MovieFilter.regions f) v
    (MovieFilter.releaseYearTo f) (MovieFilter.ratingMin f) (MovieFilter.ratingMax f)
    (MovieFilter.runtime f) (MovieFilter.ageRating f) (MovieFilter.sortBy f)
    (MovieFilter.sortOrder f) (MovieFilter.page f) (MovieFilter.limit f).

Definition withReleaseYearTo (v : option Z) (f : MovieFilter.t) : MovieFilter.t :=
  MovieFilter.mk (MovieFilter.genres f) (MovieFilter.regions f)
    (MovieFilter.releaseYearFrom f) v (MovieFilter.ratingMin f)
    (MovieFilter.ratingMax f) (MovieFilter.runtime f) (MovieFilter.ageRating f)
    (MovieFilter.sortBy f) (MovieFilter.sortOrder f) (MovieFilter.page f)
    (MovieFilter.limit f).

Definition withRatingMin (v : option Q) (f : MovieFilter.t) : MovieFilter.t :=
  MovieFilter.mk (MovieFilter.genres f) (MovieFilter.regions f)
    (MovieFilter.releaseYearFrom f) (MovieFilter.releaseYearTo f) v
    (MovieFilter.ratingMax f) (MovieFilter.runtime f) (MovieFilter.ageRating f)
    (MovieFilter.sortBy f) (MovieFilter.sortOrder f) (MovieFilter.page f)
    (MovieFilter.limit f).

Definition withRatingMax (v : option Q) (f : MovieFilter.t) : MovieFilter.t :=
  MovieFilter.mk (MovieFilter.genres f) (MovieFilter.regions f)
    (MovieFilter.releaseYearFrom f) (MovieFilter.releaseYearTo f)
    (MovieFilter.ratingMin f) v (MovieFilter.runtime f) (MovieFilter.ageRating f)
    (MovieFilter.sortBy f) (MovieFilter.sortOrder f) (MovieFilter.page f)
    (MovieFilter.limit f).



(** Both rows are rated and the first is rated at least as high. *)
Definition ratedAtLeast (a b : Movie.t) : bool :=
  match Movie.voteAverage a, Movie.voteAverage b with
  | Some x, Some y => Qle_bool y x
  | _, _ => false
  end.

Definition ratingAtLeast (q : Q) (m : Movie.t) : bool :=
  match Movie.voteAverage m with Some v => Qle_bool q v | None => false end.

(** The rows of a table for one (user, movie) pair. *)
Definition watchlistRows (userId : string) (movieId : Z) (db : DB) : list Watchlist.t :=
  filter (watchlistKey userId movieId) (watchlist db).

Definition favoriteRows (userId : string) (movieId : Z) (db : DB) : list Favorite.t :=
  filter (favoriteKey userId movieId) (favorites db).

(** Every id of the table is below the next value of its sequence, as it
    is in a table filled through the sequence. *)
Definition watchlistFresh (db : DB) : bool :=
  forallb (fun r => Watchlist.id r <? watchlist_seq db) (watchlist db).

Definition favoritesFresh (db : DB) : bool :=
  forallb (fun r => Favorite.id r <? favorites_seq db) (favorites db).

(** ** Statements of the specification, for comparison with the code *)



(** ** Sample data *)

Definition noFilter : MovieFilter.t :=
  MovieFilter.mk None None None None None None None None None None 1 20.

Definition sampleMovie (id tmdbId : Z) (title : string) (language : string)
  (runtime : Z) (voteAverage : Q) (popularity : Q) : Movie.t :=
  Movie.mk id tmdbId title None None None (Some "2020-01-01") (Some runtime)
    (Some voteAverage) (Some 100) (Some [Genre.mk 18 "Drama"]) (Some language)
    (Some false) (Some popularity) (Some 0) (Some 0).

Definition inception : Movie.t :=
  sampleMovie 1 27205 "Inception" "en" 148 (84 # 10) (90 # 1).

Definition parasite : Movie.t :=
  sampleMovie 2 496243 "Parasite" "ko" 133 (85 # 10) (80 # 1).

Definition dangal : Movie.t :=
  sampleMovie 3 360814 "Dangal" "hi" 161 (79 # 10) (70 # 1).

Definition withMovies (rows : list Movie.t) : DB :=
  setMovies rows (1 + Z.of_nat (List.length rows)) emptyDB.

Definition threeMovies : DB := withMovies [inception; parasite; dangal].

(** [{ratingMin: 7, sortBy: "rating", sortOrder: "desc", page: 1, limit: 5}] *)
Definition topRatedFilter : MovieFilter.t :=
  MovieFilter.mk None None None None (Some (7 # 1)) None None None
    (Some rating) (Some desc) 1 5.

Definition koreanFilter : MovieFilter.t :=
  withRegions (Some ["ko"]) noFilter.



Definition firstPageOfTwo : MovieFilter.t :=
  MovieFilter.mk None None None None None None None None None None 1 2.

Definition sampleDetails (id : Z) (title : string) : TMDBMovie.t :=
  TMDBMovie.mk id title "" None None "2021-06-01" (Some 100) (7 # 1) 10
    [Genre.mk 18 "Drama"] "en" false (5 # 1).

Definition sampleListing : TMDBResponse.t :=
  TMDBResponse.mk 1
    [sampleDetails 27205 "Inception"; sampleDetails 496243 "Parasite"] 500 10000.

(** The listing item has a local row with its external id. *)
Definition resident (db : DB) (tmdbMovie : TMDBMovie.t) : bool :=
  existsb (fun m => Movie.tmdbId m =? TMDBMovie.id tmdbMovie) (movies db).

(** The local row of each listing item, in listing order. *)
Definition localRows (db : DB) (results : list TMDBMovie.t) : list (option Movie.t) :=
  map (fun t => find (fun m => Movie.tmdbId m =? TMDBMovie.id t) (movies db)) results.

(** The listing items without a local row. *)
Definition missing (db : DB) (results : list TMDBMovie.t) : list TMDBMovie.t :=
  filter (fun t => negb (resident db t)) results.

(** No row of [rows] has the external id of [m]. *)
Definition absentFrom (rows : list Movie.t) (m : Movie.t) : bool :=
  forallb (fun r => negb (Movie.tmdbId r =? Movie.tmdbId m)) rows.

(** An external API whose every request throws. *)
Definition noDetails : Z -> option TMDBMovie.t := fun _ => None.

Definition twoMovies : DB := withMovies [inception; parasite].

(** The [ratings] indexes with a unique index on (user_id, movie_id). *)
Definition ratings_unique_per_pair : list (list Column) :=
  [[ColId]; [ColUserId; ColMovieId]].

Definition oneWatchlistRow : DB :=
  setWatchlist [Watchlist.mk 1 "user-1" 7 (Some 0)] 2 emptyDB.


(** ** More of [DatabaseStorage]: movie rows *)

(** [const [movie] = await db.select().from(movies).where(eq(movies.id, id))] *)
Definition getMovieById (id : Z) : M (option Movie.t) :=
  fun db => (Ok (find (fun m => Movie.id m =? id) (movies db)), db).

(** [Partial<InsertMovie>]: a key is absent ([None]) or carries a value; on
    a nullable column the value may be [null]. *)
Module MoviePatch.
Record t : Type := mk {
  tmdbId : option Z;
  title : option string;
  overview : option (option string);
  posterPath : option (option string);
  backdropPath : option (option string);
  releaseDate : option (option string);
  runtime : option (option Z);
  voteAverage : option (option Q);
  voteCount : option (option Z);
  genres : option (option (list Genre.t));
  originalLanguage : option (option string);
  adult : option (option bool);
  popularity : option (option Q)
}.
End MoviePatch.

(** The value of a column after [set]: the patch's value when the key is
    present, the old value otherwise. *)
Definition patched {A} (new : option A) (old : A) : A :=
  match new with Some v => v | None => old end.

Definition patchDecimal (precision scale : Z) (o : option (option Q))
  : Result (option (option Q)) :=
  match o with
  | None => Ok None
  | Some v => match optDecimal precision scale v with
              | Ok d => Ok (Some d)
              | Err e => Err e
              end
  end.

Definition applyPatch (now_ : Z) (voteAverage popularity : option (option Q))
  (p : MoviePatch.t) (m : Movie.t) : Movie.t :=
  Movie.mk (Movie.id m)
    (patched (MoviePatch.tmdbId p) (Movie.tmdbId m))
    (patched (MoviePatch.title p) (Movie.title m))
    (patched (MoviePatch.overview p) (Movie.overview m))
    (patched (MoviePatch.posterPath p) (Movie.posterPath m))
    (patched (MoviePatch.backdropPath p) (Movie.backdropPath m))
    (patched (MoviePatch.releaseDate p) (Movie.releaseDate m))
    (patched (MoviePatch.runtime p) (Movie.runtime m))
    (patched voteAverage (Movie.voteAverage m))
    (patched (MoviePatch.voteCount p) (Movie.voteCount m))
    (patched (MoviePatch.genres p) (Movie.genres m))
    (patched (MoviePatch.originalLanguage p) (Movie.originalLanguage m))
    (patched (MoviePatch.adult p) (Movie.adult m))
    (patched popularity (Movie.popularity m))
    (Movie.createdAt m)
    (Some now_).

(** The update would leave two rows with the external id [t]: a row that
    is not updated has it already, or more than one row is updated. *)
Definition tmdbIdClash (id : Z) (p : MoviePatch.t) (rows : list Movie.t) : bool :=
  match MoviePatch.tmdbId p with
  | Some t =>
      existsb (fun m => Movie.id m =? id) rows &&
      (existsb (fun m => negb (Movie.id m =? id) && (Movie.tmdbId m =? t)) rows
       || (1 <? Z.of_nat (List.length (filter (fun m => Movie.id m =? id) rows))))
  | None => false
  end.

(** [update(movies).set({...movie, updatedAt: new Date()})
    .where(eq(movies.id, id)).returning()]; the result is the first
    returned row, [undefined] when no row has the id.  The values of the
    decimal columns are converted when the statement is prepared, before
    any row is looked at. *)
Definition updateMovie (id : Z) (movie : MoviePatch.t) : M (option Movie.t) :=
  fun db =>
    match patchDecimal 3 1 (MoviePatch.voteAverage movie),
          patchDecimal 10 3 (MoviePatch.popularity movie) with
    | Ok va, Ok pop =>
        let rows :=
          map (fun m => if Movie.id m =? id
                        then applyPatch (now db) va pop movie m else m)
              (movies db) in
        if tmdbIdClash id movie (movies db)
        then (Err UniqueViolation, db)
        else (Ok (find (fun m => Movie.id m =? id) rows),
              setMovies rows (movies_seq db) db)
    | Err e, _ => (Err e, db)
    | _, Err e => (Err e, db)
    end.

(** ** [searchMovies] and [getTrendingMovies] *)

Definition backslash : ascii := ascii_of_nat 92.

(** SQL [LIKE]: [%] matches any run of characters, [_] any one character,
    and a backslash makes the next pattern character literal.  A pattern
    that ends in a lone backslash is an error for the database; the
    patterns built by [searchMovies] end in [%], so none does. *)
Fixpoint like (pattern : string) : string -> bool :=
  match pattern with
  | EmptyString =>
      fun s => match s with EmptyString => true | String _ _ => false end
  | String c p =>
      if Ascii.eqb c "%"
      then fix star (s : string) : bool :=
             like p s ||
             match s with
             | EmptyString => false
             | String _ s' => star s'
             end
      else if Ascii.eqb c backslash
      then match p with
           | EmptyString => fun _ => false
           | String c' p' =>
               fun s => match s with
                        | EmptyString => false
                        | String d s' => Ascii.eqb c' d && like p' s'
                        end
           end
      else if Ascii.eqb c "_"
      then fun s => match s with
                    | EmptyString => false
                    | String _ s' => like p s'
                    end
      else fun s => match s with
                    | EmptyString => false
                    | String d s' => Ascii.eqb c d && like p s'
                    end
  end.

(** [`%${query}%`] *)
Definition searchPattern (query : string) : string :=
  String "%" (query ++ "%")%string.

(** [or(like(title, pattern), like(overview, pattern))] is TRUE. *)
Definition searchCondition (query : string) (m : Movie.t) : bool :=
  like (searchPattern query) (Movie.title m) ||
  match Movie.overview m with
  | Some o => like (searchPattern query) o
  | None => false
  end.

(** A parameter with a default value: the default replaces [undefined]. *)
Definition param {A} (o : option A) (default : A) : A :=
  match o with Some a => a | None => default end.

Definition searchMovies (query : string) (page limit : option Z)
  : M (list Movie.t * nat) :=
  fun db =>
    let page := param page 1 in
    let limit := param limit 20 in
    let offset := (page - 1) * limit in
    let matching := filter (searchCondition query) (movies db) in
    if offset <? 0 then (Err NegativeOffset, db)
    else (Ok (limitRows limit
                (skipn (Z.to_nat offset)
                   (orderBy (ordering popularity desc) matching)),
              List.length matching), db).

Definition getTrendingMovies (limit : option Z) : M (list Movie.t) :=
  fun db =>
    let limit := param limit 10 in
    (Ok (limitRows limit
           (orderBy (ordering popularity desc) (movies db))), db).

(** ** Listing a user's watchlist and favorites

    [getUserWatchlist] and [getUserFavorites] run the same two queries on
    their table: the page joins the user's entries with [movies] on the
    movie id, newest entry first; the count ranges over the user's entries
    alone.  The join lists, for each entry in table order, the movies with
    its movie id. *)

Section ListVia.
Context {R : Type}.
Variable userOf : R -> string.
Variable movieOf : R -> Z.
Variable createdOf : R -> option Z.

Definition entriesOf (userId : string) (rows : list R) : list R :=
  filter (fun r => String.eqb (userOf r) userId) rows.

Definition joinMovies (userId : string) (rows : list R) (ms : list Movie.t)
  : list (R * Movie.t) :=
  flat_map (fun r => map (fun m => (r, m))
                         (filter (fun m => movieOf r =? Movie.id m) ms))
           (entriesOf userId rows).

(** [desc(createdAt)] *)
Definition newestFirst (a b : R * Movie.t) : bool :=
  nullsLargest Z.leb (createdOf (fst b)) (createdOf (fst a)).

Definition listVia (userId : string) (page limit : option Z)
  (rows : list R) (ms : list Movie.t) : Result (list Movie.t * nat) :=
  let page := param page 1 in
  let limit := param limit 20 in
  let offset := (page - 1) * limit in
  if offset <? 0 then Err NegativeOffset
  else Ok (map snd (limitRows limit
                      (skipn (Z.to_nat offset)
                         (orderBy newestFirst (joinMovies userId rows ms)))),
           List.length (entriesOf userId rows)).
End ListVia.

Definition getUserWatchlist (userId : string) (page limit : option Z)
  : M (list Movie.t * nat) :=
  fun db =>
    match listVia Watchlist.userId Watchlist.movieId Watchlist.createdAt
            userId page limit (watchlist db) (movies db) with
    | Ok r => (Ok r, db)
    | Err e => (Err e, db)
    end.


(** [select().from(ratings).where(eq(userId, ...)).orderBy(desc(updatedAt))] *)
Definition getUserRatings (userId : string) : M (list Rating.t) :=
  fun db =>
    (Ok (orderBy (fun a b => nullsLargest Z.leb (Rating.updatedAt b) (Rating.updatedAt a))
           (filter (fun r => String.eqb (Rating.userId r) userId) (ratings db))),
     db).


(** ** Users and user preferences

    The [users] table has its primary key [id] and a unique [email]; the
    [user_preferences] table has a serial primary key and a unique
    [user_id].  A key of an insert or of a [set] object is absent
    ([None]) or carries a value, which may be [null] on a nullable
    column. *)

Module User.
Record t : Type := mk {
  id : string;
  email : option string;
  firstName : option string;
  lastName : option string;
  profileImageUrl : option string;
  createdAt : option Z;
  updatedAt : option Z
}.
End User.

Module UpsertUser.
Record t : Type := mk {
  id : string;
  email : option (option string);
  firstName : option (option string);
  lastName : option (option string);
  profileImageUrl : option (option string);
  createdAt : option (option Z);
  updatedAt : option (option Z)
}.
End UpsertUser.

Module UserPreferences.
Record t : Type := mk {
  id : Z;
  userId : string;
  preferredGenres : option (list Z);
  preferredLanguages : option (list string);
  ageRating : option string;
  createdAt : option Z;
  updatedAt : option Z
}.
End UserPreferences.

(** [Partial<InsertUserPreferences>] *)
Module PreferencesPatch.
Record t : Type := mk {
  userId : option string;
  preferredGenres : option (option (list Z));
  preferredLanguages : option (option (list string));
  ageRating : option (option string)
}.
End PreferencesPatch.

Module Accounts.
Record t : Type := mk {
  users : list User.t;
  userPreferences : list UserPreferences.t;
  userPreferences_seq : Z;
  now : Z
}.
End Accounts.

Definition noAccounts : Accounts.t := Accounts.mk [] [] 1 0.

Definition getUser (id : string) (acc : Accounts.t) : Result (option User.t) * Accounts.t :=
  (Ok (find (fun u => String.eqb (User.id u) id) (Accounts.users acc)), acc).

(** Some row of [rows] has the email [e]. *)
Definition emailTaken (e : string) (rows : list User.t) : bool :=
  existsb (fun u => match User.email u with
                    | Some e' => String.eqb e e'
                    | None => false
                    end) rows.

(** [insert(users).values(userData).onConflictDoUpdate({ target: users.id,
    set: {...userData, updatedAt: new Date()} }).returning()] *)
Definition upsertUser (userData : UpsertUser.t) (acc : Accounts.t)
  : Result User.t * Accounts.t :=
  let hit (u : User.t) := String.eqb (User.id u) (UpsertUser.id userData) in
  let others := filter (fun u => negb (hit u)) (Accounts.users acc) in
  match find hit (Accounts.users acc) with
  | Some old =>
      let set_ (u : User.t) :=
        User.mk (UpsertUser.id userData)
          (patched (UpsertUser.email userData) (User.email u))
          (patched (UpsertUser.firstName userData) (User.firstName u))
          (patched (UpsertUser.lastName userData) (User.lastName u))
          (patched (UpsertUser.profileImageUrl userData) (User.profileImageUrl u))
          (patched (UpsertUser.createdAt userData) (User.createdAt u))
          (Some (Accounts.now acc)) in
      let clash :=
        match UpsertUser.email userData with
        | Some (Some e) => emailTaken e others
        | _ => false
        end in
      if clash then (Err UniqueViolation, acc)
      else (Ok (set_ old),
            Accounts.mk (map (fun u => if hit u then set_ u else u) (Accounts.users acc))
              (Accounts.userPreferences acc)
              (Accounts.userPreferences_seq acc) (Accounts.now acc))
  | None =>
      let row :=
        User.mk (UpsertUser.id userData)
          (patched (UpsertUser.email userData) None)
          (patched (UpsertUser.firstName userData) None)
          (patched (UpsertUser.lastName userData) None)
          (patched (UpsertUser.profileImageUrl userData) None)
          (patched (UpsertUser.createdAt userData) (Some (Accounts.now acc)))
          (patched (UpsertUser.updatedAt userData) (Some (Accounts.now acc))) in
      match User.email row with
      | Some e =>
          if emailTaken e (Accounts.users acc) then (Err UniqueViolation, acc)
          else (Ok row, Accounts.mk (Accounts.users acc ++ [row])
                          (Accounts.userPreferences acc)
                          (Accounts.userPreferences_seq acc) (Accounts.now acc))
      | None =>
          (Ok row, Accounts.mk (Accounts.users acc ++ [row])
                     (Accounts.userPreferences acc)
                     (Accounts.userPreferences_seq acc) (Accounts.now acc))
      end
  end.

Definition getUserPreferences (userId : string) (acc : Accounts.t)
  : Result (option UserPreferences.t) * Accounts.t :=
  (Ok (find (fun r => String.eqb (UserPreferences.userId r) userId)
         (Accounts.userPreferences acc)), acc).

(** [insert(userPreferences).values({ userId, ...preferences })
    .onConflictDoUpdate({ target: userPreferences.userId,
    set: { ...preferences, updatedAt: new Date() } }).returning()].  The
    spread puts a [userId] key of [preferences] over the parameter. *)
Definition updateUserPreferences (userId : string) (preferences : PreferencesPatch.t)
  (acc : Accounts.t) : Result UserPreferences.t * Accounts.t :=
  let uid := patched (PreferencesPatch.userId preferences) userId in
  let hit (r : UserPreferences.t) := String.eqb (UserPreferences.userId r) uid in
  let seq := Accounts.userPreferences_seq acc in
  match find hit (Accounts.userPreferences acc) with
  | Some old =>
      let set_ (r : UserPreferences.t) :=
        UserPreferences.mk (UserPreferences.id r) (UserPreferences.userId r)
          (patched (PreferencesPatch.preferredGenres preferences)
                   (UserPreferences.preferredGenres r))
          (patched (PreferencesPatch.preferredLanguages preferences)
                   (UserPreferences.preferredLanguages r))
          (patched (PreferencesPatch.ageRating preferences)
                   (UserPreferences.ageRating r))
          (UserPreferences.createdAt r)
          (Some (Accounts.now acc)) in
      (Ok (set_ old),
       Accounts.mk (Accounts.users acc)
         (map (fun r => if hit r then set_ r else r) (Accounts.userPreferences acc))
         (seq + 1) (Accounts.now acc))
  | None =>
      let row :=
        UserPreferences.mk seq uid
          (patched (PreferencesPatch.preferredGenres preferences) None)
          (patched (PreferencesPatch.preferredLanguages preferences) None)
          (patched (PreferencesPatch.ageRating preferences) None)
          (Some (Accounts.now acc)) (Some (Accounts.now acc)) in
      if existsb (fun r => UserPreferences.id r =? seq) (Accounts.userPreferences acc)
      then (Err UniqueViolation, acc)
      else (Ok row,
            Accounts.mk (Accounts.users acc)
              (Accounts.userPreferences acc ++ [row]) (seq + 1) (Accounts.now acc))
  end.

(** The handler of [POST /api/preferences], on a body of the right
    types: [insertUserPreferencesSchema.parse({ ...req.body, userId })]
    puts the session's user id over the body's, and the result goes to
    [updateUserPreferences(userId, preferences)]. *)
Definition postPreferences (userId : string) (body : PreferencesPatch.t)
  (acc : Accounts.t) : Result UserPreferences.t * Accounts.t :=
  updateUserPreferences userId
    (PreferencesPatch.mk (Some userId)
       (PreferencesPatch.preferredGenres body)
       (PreferencesPatch.preferredLanguages body)
       (PreferencesPatch.ageRating body)) acc.

(** Every preferences id is below the next value of the sequence. *)
Definition preferencesFresh (acc : Accounts.t) : bool :=
  forallb (fun r => UserPreferences.id r <? Accounts.userPreferences_seq acc)
          (Accounts.userPreferences acc).

(** ** The trailer lookup of the TMDB service *)

Module TMDBVideo.
Record t : Type := mk {
  id : string;
  key : string;
  name : string;
  site : string;
  type_ : string;
  official : bool
}.
End TMDBVideo.

Definition youtubeTrailer (video : TMDBVideo.t) : bool :=
  String.eqb (TMDBVideo.site video) "YouTube" &&
  String.eqb (TMDBVideo.type_ video) "Trailer".

Definition officialYoutubeTrailer (video : TMDBVideo.t) : bool :=
  youtubeTrailer video && TMDBVideo.official video.

(** [results.find(official trailer) || results.find(trailer)] *)
Definition pickTrailer (results : list TMDBVideo.t) : option TMDBVideo.t :=
  match find officialYoutubeTrailer results with
  | Some v => Some v
  | None => find youtubeTrailer results
  end.

Section Trailers.
(** [getMovieVideos]: the results of the request, [None] when it throws. *)
Variable getMovieVideos : Z -> option (list TMDBVideo.t).

Definition trailerWith (prefix : string) (movieId : Z) : option string :=
  match getMovieVideos movieId with
  | Some results =>
      match pickTrailer results with
      | Some trailer => Some (prefix ++ TMDBVideo.key trailer)%string
      | None => None
      end
  | None => None
  end.

Definition getYouTubeTrailer (movieId : Z) : option string :=
  trailerWith "https://www.youtube.com/watch?v=" movieId.

Definition getYouTubeEmbedUrl (movieId : Z) : option string :=
  trailerWith "https://www.youtube.com/embed/" movieId.
End Trailers.

(** ** Route handlers *)

Inductive Response (A : Type) : Type :=
| Json (body : A)                          (* res.json(body), status 200 *)
| Status (code : Z) (message : string).    (* res.status(code).json({message}) *)

Arguments Json {A} body.
Arguments Status {A} code message.

(** [GET /api/movies/search]: [q] is the query parameter when it is a
    string; [page] and [limit] are the numbers read from the query, with
    the handler's defaults 1 and 20. *)
Definition searchRoute (q : option string) (page limit : option Z) (db : DB)
  : Response (list Movie.t * nat) :=
  match q with
  | None => Status 400 "Search query is required"
  | Some query =>
      if String.eqb query ""
      then Status 400 "Search query is required"
      else match fst (searchMovies query (Some (param page 1))
                        (Some (param limit 20)) db) with
           | Ok result => Json result
           | Err _ => Status 500 "Failed to search movies"
           end
  end.

(** ** Sequences of storage operations *)

Inductive Op : Type :=
| OpCreateMovie (movie : InsertMovie.t)
| OpUpdateMovie (id : Z) (movie : MoviePatch.t)
| OpAddToWatchlist (userId : string) (movieId : Z)
| OpRemoveFromWatchlist (userId : string) (movieId : Z)
| OpAddToFavorites (userId : string) (movieId : Z)
| OpRemoveFromFavorites (userId : string) (movieId : Z)
| OpRateMovie (userId : string) (movieId : Z) (rating : Q)
| OpSync (getMovieDetails : Z -> option TMDBMovie.t)
         (listing : option TMDBResponse.t).

(** The database after the operation, whether it succeeded or not. *)
Definition exec (op : Op) (db : DB) : DB :=
  match op with
  | OpCreateMovie movie => snd (createMovie movie db)
  | OpUpdateMovie id movie => snd (updateMovie id movie db)
  | OpAddToWatchlist u m => snd (addToWatchlist u m db)
  | OpRemoveFromWatchlist u m => snd (removeFromWatchlist u m db)
  | OpAddToFavorites u m => snd (addToFavorites u m db)
  | OpRemoveFromFavorites u m => snd (removeFromFavorites u m db)
  | OpRateMovie u m r => snd (rateMovie u m r db)
  | OpSync getMovieDetails listing => snd (syncListing getMovieDetails listing db)
  end.

Definition run (ops : list Op) (db : DB) : DB :=
  fold_left (fun d op => exec op d) ops db.

(** The [movies] table: ids come from the sequence, and no two rows share
    an id or an external id. *)
Definition moviesOk (rows : list Movie.t) (seq : Z) : Prop :=
  forallb (fun m => Movie.id m <? seq) rows = true /\
  NoDup (map Movie.id rows) /\
  NoDup (map Movie.tmdbId rows).

Definition watchlistOk (rows : list Watchlist.t) (seq : Z) : Prop :=
  forallb (fun r => Watchlist.id r <? seq) rows = true /\
  NoDup (map Watchlist.id rows).

Definition favoritesOk (rows : list Favorite.t) (seq : Z) : Prop :=
  forallb (fun r => Favorite.id r <? seq) rows = true /\
  NoDup (map Favorite.id rows).

(** Ids come from the sequences and no two rows share a key of a unique
    index of the schema. *)
Definition consistent (db : DB) : Prop :=
  moviesOk (movies db) (movies_seq db) /\
  watchlistOk (watchlist db) (watchlist_seq db) /\
  favoritesOk (favorites db) (favorites_seq db).

(** ** Views used in the further statements *)

(** The rows and the total a call returned; none after a rejected query. *)
Definition pageOf {A B} (r : Result (list A * B)) : list A :=
  match r with Ok (rows, _) => rows | Err _ => [] end.

Definition totalOf {A} (r : Result (list A * nat)) : nat :=
  match r with Ok (_, total) => total | Err _ => 0%nat end.

Definition withPage (v : Z) (f : MovieFilter.t) : MovieFilter.t :=
  MovieFilter.mk (MovieFilter.genres f) (MovieFilter.regions f)
    (MovieFilter.releaseYearFrom f) (MovieFilter.releaseYearTo f)
    (MovieFilter.ratingMin f) (MovieFilter.ratingMax f) (MovieFilter.runtime f)
    (MovieFilter.ageRating f) (MovieFilter.sortBy f) (MovieFilter.sortOrder f)
    v (MovieFilter.limit f).






Fixpoint percents (n : nat) : string :=
  match n with
  | O => EmptyString
  | S n' => String "%" (percents n')
  end.

(** The user's watchlist entries whose movie id no movie row has. *)
Definition danglingEntries (userId : string) (db : DB) : list Watchlist.t :=
  filter (fun w => negb (existsb (fun m => Watchlist.movieId w =? Movie.id m) (movies db)))
         (entriesOf Watchlist.userId userId (watchlist db)).

(** The external API answers a details request with the movie asked for. *)
Definition detailsConsistent (getMovieDetails : Z -> option TMDBMovie.t) : Prop :=
  forall id d, getMovieDetails id = Some d -> TMDBMovie.id d = id.

Definition sampleApi (id : Z) : option TMDBMovie.t :=
  Some (sampleDetails id "Fetched").

Definition sampleVideos (movieId : Z) : option (list TMDBVideo.t) :=
  if movieId =? 27205
  then Some [TMDBVideo.mk "v1" "abc" "Teaser" "YouTube" "Teaser" true;
             TMDBVideo.mk "v2" "def" "Trailer" "YouTube" "Trailer" false;
             TMDBVideo.mk "v3" "ghi" "Official Trailer" "YouTube" "Trailer" true]
  else None.


(** A watchlist with an entry for movie 1 and an entry for movie 9, which
    no row of [movies] has. *)
Definition watchlistWithDangling : DB :=
  setWatchlist [Watchlist.mk 1 "user-1" 1 (Some 0); Watchlist.mk 2 "user-1" 9 (Some 5)]
    3 threeMovies.

(** The emails of the user rows that have one. *)
Definition emailsOf (rows : list User.t) : list string :=
  flat_map (fun u => match User.email u with Some e => [e] | None => [] end) rows.

(** No two users share an id or an email. *)
Definition usersOk (acc : Accounts.t) : Prop :=
  NoDup (map User.id (Accounts.users acc)) /\
  NoDup (emailsOf (Accounts.users acc)).

(** The email that [upsertUser] would write belongs to a user with another
    id. *)
Definition emailOfAnother (userData : UpsertUser.t) (acc : Accounts.t) : bool :=
  match UpsertUser.email userData with
  | Some (Some e) =>
      emailTaken e
        (filter (fun u => negb (String.eqb (User.id u) (UpsertUser.id userData)))
           (Accounts.users acc))
  | _ => false
  end.

(** One preferences row per user, with ids from the sequence. *)
Definition preferencesOk (acc : Accounts.t) : Prop :=
  preferencesFresh acc = true /\
  NoDup (map UserPreferences.userId (Accounts.userPreferences acc)).

Definition sampleUser (id email : string) : UpsertUser.t :=
  UpsertUser.mk id (Some (Some email)) (Some (Some "Ada")) None None None None.

Definition oneUser : Accounts.t :=
  snd (upsertUser (sampleUser "user-1" "ada@example.org") noAccounts).

Definition genresPatch (genreIds : list Z) : PreferencesPatch.t :=
  PreferencesPatch.mk None (Some (Some genreIds)) None None.

Definition onePreference : Accounts.t :=
  snd (updateUserPreferences "user-1"
         (PreferencesPatch.mk None (Some (Some [18])) (Some (Some ["en"])) None)
         noAccounts).

(** * Properties *)

(** ** Lists: ORDER BY, LIMIT and OFFSET *)

Section OrderBy.
Context {A : Type} (le : A -> A -> bool).

Lemma insertBy_perm (x : A) (l : list A) :
  Permutation (insertBy le x l) (x :: l).
Proof.
  induction l as [|y l IH]; simpl.
  - apply Permutation_refl.
  - destruct (le x y).
    + apply Permutation_refl.
    + apply perm_trans with (y :: x :: l).
      * apply perm_skip, IH.
      * apply perm_swap.
Qed.

Lemma orderBy_perm (l : list A) : Permutation (orderBy le l) l.
Proof.
  induction l as [|x l IH]; simpl.
  - apply perm_nil.
  - apply perm_trans with (x :: orderBy le l).
    + apply insertBy_perm.
    + apply perm_skip, IH.
Qed.

Lemma orderBy_In (x : A) (l : list A) : In x (orderBy le l) -> In x l.
Proof. apply Permutation_in, orderBy_perm. Qed.

Lemma orderBy_length (l : list A) : List.length (orderBy le l) = List.length l.
Proof. apply Permutation_length, orderBy_perm. Qed.

Hypothesis le_total : forall a b, le a b = false -> le b a = true.
Hypothesis le_trans : forall a b c, le a b = true -> le b c = true -> le a c = true.

Lemma insertBy_sorted (x : A) (l : list A) :
  StronglySorted (fun a b => le a b = true) l ->
  StronglySorted (fun a b => le a b = true) (insertBy le x l).
Proof.
  induction 1 as [|y l Hs IH Hy]; simpl.
  - constructor; [constructor | constructor].
  - destruct (le x y) eqn:E.
    + constructor.
      * constructor; assumption.
      * constructor; [exact E|].
        rewrite Forall_forall in *. intros z Hz.
        apply le_trans with y; [exact E | apply Hy, Hz].
    + constructor; [exact IH|].
      rewrite Forall_forall in *. intros z Hz.
      apply (Permutation_in _ (insertBy_perm x l)) in Hz.
      destruct Hz as [<- | Hz]; [apply le_total, E | apply Hy, Hz].
Qed.

Lemma orderBy_sorted (l : list A) :
  StronglySorted (fun a b => le a b = true) (orderBy le l).
Proof.
  induction l as [|x l IH]; simpl.
  - constructor.
  - apply insertBy_sorted, IH.
Qed.
End OrderBy.

Lemma In_firstn_inv {A} (n : nat) (x : A) (l : list A) :
  In x (firstn n l) -> In x l.
Proof.
  intros H. rewrite <- (firstn_skipn n l). apply in_or_app. now left.
Qed.

Lemma In_skipn_inv {A} (n : nat) (x : A) (l : list A) :
  In x (skipn n l) -> In x l.
Proof.
  intros H. rewrite <- (firstn_skipn n l). apply in_or_app. now right.
Qed.

Section Paging.
Context {A : Type} (R : A -> A -> Prop).

Lemma StronglySorted_skipn (n : nat) (l : list A) :
  StronglySorted R l -> StronglySorted R (skipn n l).
Proof.
  revert l. induction n as [|n IH]; intros l Hs; simpl.
  - exact Hs.
  - destruct l as [|x l]; [constructor|].
    apply IH. inversion Hs; assumption.
Qed.

Lemma StronglySorted_firstn (n : nat) (l : list A) :
  StronglySorted R l -> StronglySorted R (firstn n l).
Proof.
  revert l. induction n as [|n IH]; intros l Hs; simpl.
  - constructor.
  - destruct l as [|x l]; [constructor|].
    inversion Hs as [|? ? Hl Hx]; subst. constructor.
    + apply IH, Hl.
    + rewrite Forall_forall in *. intros y Hy.
      apply Hx. revert Hy. apply In_firstn_inv.
Qed.

Lemma StronglySorted_weaken (P : A -> Prop) (R' : A -> A -> Prop) (l : list A) :
  (forall a b, P a -> P b -> R a b -> R' a b) ->
  Forall P l -> StronglySorted R l -> StronglySorted R' l.
Proof.
  intros HR HP Hs. induction Hs as [|x l Hs IH Hx].
  - constructor.
  - inversion HP as [|? ? Px Pl]; subst. constructor.
    + apply IH, Pl.
    + rewrite Forall_forall in *. intros y Hy.
      apply HR; [exact Px | apply Pl, Hy | apply Hx, Hy].
Qed.
End Paging.

Lemma In_limitRows {A} (limit : Z) (x : A) (l : list A) :
  In x (limitRows limit l) -> In x l.
Proof.
  unfold limitRows. destruct (limit <? 0); [auto | apply In_firstn_inv].
Qed.

Lemma In_limit_offset {A} (limit : Z) (offset : nat) (x : A) (l : list A) :
  In x (limitRows limit (skipn offset l)) -> In x l.
Proof.
  intros H. apply In_limitRows in H. revert H. apply In_skipn_inv.
Qed.


Lemma limitRows_all {A} (limit : Z) (l : list A) :
  limit < 0 \/ Z.of_nat (List.length l) <= limit -> limitRows limit l = l.
Proof.
  intros H. unfold limitRows.
  destruct (limit <? 0) eqn:E; [reflexivity|].
  apply firstn_all2. lia.
Qed.

Lemma limitRows_firstn {A} (limit : Z) (l : list A) :
  0 <= limit -> limitRows limit l = firstn (Z.to_nat limit) l.
Proof.
  intros H. unfold limitRows.
  destruct (limit <? 0) eqn:E; [lia | reflexivity].
Qed.

Lemma StronglySorted_limitRows {A} (R : A -> A -> Prop) (limit : Z) (l : list A) :
  StronglySorted R l -> StronglySorted R (limitRows limit l).
Proof.
  unfold limitRows. destruct (limit <? 0); [auto | apply StronglySorted_firstn].
Qed.

Lemma filter_all {A} (l : list A) : filter (fun _ => true) l = l.
Proof.
  induction l as [|x l IH]; simpl; [reflexivity | now rewrite IH].
Qed.

(** ** The WHERE clause of [getMovies] *)

Lemma whereRows_filter (filters : MovieFilter.t) (rows : list Movie.t) :
  whereRows (conditions filters) rows = filter (whereClause filters) rows.
Proof.
  unfold whereRows, whereClause.
  destruct (conditions filters) as [|c cs].
  - symmetry. apply filter_all.
  - reflexivity.
Qed.

(** A condition that calls [JSON_SEARCH] or [YEAR] is pushed exactly for a
    genre list that is not empty and for a release-year bound that is not
    0. *)
Lemma undefinedFunction_conditions (filters : MovieFilter.t) :
  existsb undefinedFunction (conditions filters) = usesGenresOrYears filters.
Proof.
  unfold conditions, usesGenresOrYears.
  assert (Hg : existsb undefinedFunction (genreConditions filters) =
               match MovieFilter.genres filters with
               | Some (_ :: _) => true
               | _ => false
               end).
  { unfold genreConditions.
    destruct (MovieFilter.genres filters) as [[|g gs]|]; reflexivity. }
  assert (Hf : existsb undefinedFunction (releaseYearFromConditions filters) =
               truthyZ (MovieFilter.releaseYearFrom filters)).
  { unfold releaseYearFromConditions.
    destruct (MovieFilter.releaseYearFrom filters) as [y|]; [|reflexivity].
    destruct (truthyZ (Some y)); reflexivity. }
  assert (Ht : existsb undefinedFunction (releaseYearToConditions filters) =
               truthyZ (MovieFilter.releaseYearTo filters)).
  { unfold releaseYearToConditions.
    destruct (MovieFilter.releaseYearTo filters) as [y|]; [|reflexivity].
    destruct (truthyZ (Some y)); reflexivity. }
  assert (Hr : existsb undefinedFunction
                 (ratingMinConditions filters ++ ratingMaxConditions filters ++
                  runtimeConditions filters) = false).
  { rewrite !existsb_app. unfold ratingMinConditions, ratingMaxConditions,
      runtimeConditions.
    destruct (MovieFilter.ratingMin filters) as [q|];
      [destruct (truthyQ (Some q))|];
      (destruct (MovieFilter.ratingMax filters) as [q'|];
       [destruct (truthyQ (Some q'))|]);
      destruct (MovieFilter.runtime filters) as [[| | |]|]; reflexivity. }
  rewrite !existsb_app in *. rewrite Hg, Hf, Ht, Hr.
  rewrite orb_false_r, orb_assoc. reflexivity.
Qed.

(** [getMovies] in terms of the views: the page and the count range over
    the same rows; the query is rejected when it calls a function the
    database does not have or asks for a negative OFFSET. *)
Lemma getMovies_eq (filters : MovieFilter.t) (db : DB) :
  getMovies filters db =
  if usesGenresOrYears filters then (Err UndefinedFunction, db)
  else if offsetOf filters <? 0 then (Err NegativeOffset, db)
  else (Ok (limitRows (effectiveLimit filters)
              (skipn (Z.to_nat (offsetOf filters)) (orderedRows filters db)),
            List.length (matchingRows filters db)), db).
Proof.
  unfold getMovies, orderedRows, matchingRows, effectiveOrdering, offsetOf,
    effectiveLimit, effectivePage.
  rewrite whereRows_filter, undefinedFunction_conditions. reflexivity.
Qed.

(** The WHERE clause, field by field: the genre list (when not empty), the
    two release-year bounds and the two rating bounds (when not 0) and the
    runtime bucket each add one conjunct. *)
Lemma whereClause_fields (filters : MovieFilter.t) (m : Movie.t) :
  whereClause filters m =
  forallb (holds m) (genreConditions filters) &&
  (forallb (holds m) (releaseYearFromConditions filters) &&
  (forallb (holds m) (releaseYearToConditions filters) &&
  (forallb (holds m) (ratingMinConditions filters) &&
  (forallb (holds m) (ratingMaxConditions filters) &&
   forallb (holds m) (runtimeConditions filters))))).
Proof.
  unfold whereClause, conditions.
  repeat rewrite forallb_app. reflexivity.
Qed.


(** [getMovies] reads the filter only through the pushed conditions, the
    sort key and direction, the page and the limit. *)
Lemma getMovies_ext (f g : MovieFilter.t) (db : DB) :
  conditions f = conditions g ->
  MovieFilter.sortBy f = MovieFilter.sortBy g ->
  MovieFilter.sortOrder f = MovieFilter.sortOrder g ->
  MovieFilter.page f = MovieFilter.page g ->
  MovieFilter.limit f = MovieFilter.limit g ->
  getMovies f db = getMovies g db.
Proof.
  intros Hc Hs Ho Hp Hl. unfold getMovies.
  rewrite Hc, Hs, Ho, Hp, Hl. reflexivity.
Qed.

(** The [regions] and [ageRating] fields are never read. *)
Lemma getMovies_regions_ageRating_unused
  (regions ageRating : option (list string)) (filters : MovieFilter.t) (db : DB) :
  getMovies (withRegions regions (withAgeRating ageRating filters)) db =
  getMovies filters db.
Proof. apply getMovies_ext; reflexivity. Qed.

(** ** Orderings *)

Lemma Qle_bool_total (a b : Q) : Qle_bool a b = false -> Qle_bool b a = true.
Proof.
  intros H. apply Qle_bool_iff.
  destruct (Qlt_le_dec b a) as [Hlt | Hle].
  - apply Qlt_le_weak, Hlt.
  - apply Qle_bool_iff in Hle. congruence.
Qed.

Lemma Qle_bool_trans (a b c : Q) :
  Qle_bool a b = true -> Qle_bool b c = true -> Qle_bool a c = true.
Proof.
  rewrite !Qle_bool_iff. apply Qle_trans.
Qed.

Lemma nullsLargest_total {A} (le : A -> A -> bool) :
  (forall a b, le a b = false -> le b a = true) ->
  forall x y, nullsLargest le x y = false -> nullsLargest le y x = true.
Proof.
  intros Hle [a|] [b|]; simpl; auto; discriminate.
Qed.

Lemma nullsLargest_trans {A} (le : A -> A -> bool) :
  (forall a b c, le a b = true -> le b c = true -> le a c = true) ->
  forall x y z, nullsLargest le x y = true -> nullsLargest le y z = true ->
                nullsLargest le x z = true.
Proof.
  intros Hle [a|] [b|] [c|]; simpl; eauto; discriminate.
Qed.

Lemma rating_desc_total (a b : Movie.t) :
  ordering rating desc a b = false -> ordering rating desc b a = true.
Proof.
  simpl. apply nullsLargest_total. exact Qle_bool_total.
Qed.

Lemma rating_desc_trans (a b c : Movie.t) :
  ordering rating desc a b = true -> ordering rating desc b c = true ->
  ordering rating desc a c = true.
Proof.
  simpl. intros Hab Hbc.
  exact (nullsLargest_trans Qle_bool Qle_bool_trans _ _ _ Hbc Hab).
Qed.

(** The byte-wise order on text is a total preorder. *)
Lemma String_compare_trans_le (a : string) :
  forall b c, String.compare a b <> Gt -> String.compare b c <> Gt ->
              String.compare a c <> Gt.
Proof.
  induction a as [|x a IH]; intros [|y b] [|z c]; simpl; try congruence.
  unfold Ascii.compare.
  destruct (N.compare_spec (N_of_ascii x) (N_of_ascii y));
    destruct (N.compare_spec (N_of_ascii y) (N_of_ascii z));
    destruct (N.compare_spec (N_of_ascii x) (N_of_ascii z));
    try congruence; try lia.
  apply IH.
Qed.

Lemma String_leb_trans (a b c : string) :
  String.leb a b = true -> String.leb b c = true -> String.leb a c = true.
Proof.
  unfold String.leb. intros Hab Hbc.
  pose proof (String_compare_trans_le a b c) as H.
  destruct (String.compare a b); destruct (String.compare b c);
    destruct (String.compare a c); try reflexivity; try discriminate;
    exfalso; apply H; congruence.
Qed.

Lemma String_leb_total (a b : string) :
  String.leb a b = false -> String.leb b a = true.
Proof.
  intros H. destruct (String.leb_total a b) as [E|E]; [congruence | exact E].
Qed.

Lemma Z_leb_total (a b : Z) : (a <=? b) = false -> (b <=? a) = true.
Proof. lia. Qed.

Lemma Z_leb_trans (a b c : Z) :
  (a <=? b) = true -> (b <=? c) = true -> (a <=? c) = true.
Proof. lia. Qed.

Lemma ascending_total (by_ : SortBy) (a b : Movie.t) :
  ascending by_ a b = false -> ascending by_ b a = true.
Proof.
  destruct by_; simpl.
  - apply nullsLargest_total, Qle_bool_total.
  - apply nullsLargest_total, Qle_bool_total.
  - apply nullsLargest_total, String_leb_total.
  - apply String_leb_total.
Qed.

Lemma ascending_trans (by_ : SortBy) (a b c : Movie.t) :
  ascending by_ a b = true -> ascending by_ b c = true ->
  ascending by_ a c = true.
Proof.
  destruct by_; simpl.
  - apply nullsLargest_trans, Qle_bool_trans.
  - apply nullsLargest_trans, Qle_bool_trans.
  - apply nullsLargest_trans, String_leb_trans.
  - apply String_leb_trans.
Qed.

Lemma ordering_total (by_ : SortBy) (order : SortOrder) (a b : Movie.t) :
  ordering by_ order a b = false -> ordering by_ order b a = true.
Proof. destruct order; simpl; apply ascending_total. Qed.

Lemma ordering_trans (by_ : SortBy) (order : SortOrder) (a b c : Movie.t) :
  ordering by_ order a b = true -> ordering by_ order b c = true ->
  ordering by_ order a c = true.
Proof.
  destruct order; simpl; intros Hab Hbc.
  - exact (ascending_trans by_ a b c Hab Hbc).
  - exact (ascending_trans by_ c b a Hbc Hab).
Qed.

Lemma effectiveOrdering_sorted (filters : MovieFilter.t) (rows : list Movie.t) :
  StronglySorted (fun a b => effectiveOrdering filters a b = true)
                 (orderBy (effectiveOrdering filters) rows).
Proof.
  unfold effectiveOrdering. apply orderBy_sorted.
  - apply ordering_total.
  - apply ordering_trans.
Qed.

(** ** Rows of a page *)

Lemma getMovies_page_In (filters : MovieFilter.t) (db : DB) (m : Movie.t) :
  In m (pageOf (fst (getMovies filters db))) ->
  In m (movies db) /\ whereClause filters m = true.
Proof.
  rewrite getMovies_eq.
  destruct (usesGenresOrYears filters); [intros []|].
  destruct (offsetOf filters <? 0); [intros []|].
  simpl. intros H. apply In_limit_offset in H. apply orderBy_In in H.
  apply filter_In in H. exact H.
Qed.


Lemma filter_same {A} (p q : A -> bool) (l : list A) :
  (forall x, p x = q x) -> filter p l = filter q l.
Proof.
  intros H. induction l as [|x l IH]; simpl; [reflexivity|].
  rewrite H, IH. reflexivity.
Qed.


(** Two sorted lists with the same rows are equal when no two rows share
    a sort key. *)
Lemma sorted_permutation_unique {A} (le : A -> A -> bool) (l1 l2 : list A) :
  (forall a b, In a l1 -> In b l1 -> le a b = true -> le b a = true -> a = b) ->
  Permutation l1 l2 ->
  StronglySorted (fun a b => le a b = true) l1 ->
  StronglySorted (fun a b => le a b = true) l2 ->
  l1 = l2.
Proof.
  revert l2. induction l1 as [|a l1 IH]; intros l2 Hanti Hp S1 S2.
  - apply Permutation_nil in Hp. now subst.
  - destruct l2 as [|b l2].
    { apply Permutation_sym, Permutation_nil in Hp. discriminate. }
    inversion S1 as [|? ? S1' F1]; subst.
    inversion S2 as [|? ? S2' F2]; subst.
    assert (E : a = b).
    { assert (Ha : In a (b :: l2))
        by (apply (Permutation_in _ Hp); now left).
      assert (Hb : In b (a :: l1))
        by (apply (Permutation_in _ (Permutation_sym Hp)); now left).
      destruct Ha as [Ha|Ha]; [now symmetry|].
      destruct Hb as [Hb|Hb]; [exact Hb|].
      rewrite Forall_forall in F1, F2.
      apply Hanti; [now left | now right | apply F1, Hb | apply F2, Ha]. }
    subst b. f_equal. apply IH.
    + intros x y Hx Hy. apply Hanti; now right.
    + exact (Permutation_cons_inv Hp).
    + exact S1'.
    + exact S2'.
Qed.



(** ** Claims about [getMovies] *)





(** C6: for [{ratingMin: 7, sortBy: "rating", sortOrder: "desc", page: 1,
    limit: 5}], over any table, [getMovies] returns at most 5 rows, each
    rated and rated at least 7, in descending order of rating. *)
Theorem getMovies_top_rated (db : DB) :
  exists page total,
    getMovies topRatedFilter db = (Ok (page, total), db) /\
    (List.length page <= 5)%nat /\
    Forall (fun m => ratingAtLeast (7 # 1) m = true) page /\
    StronglySorted (fun a b => ratedAtLeast a b = true) page.
Proof.
  exists (firstn 5 (orderedRows topRatedFilter db)),
         (List.length (matchingRows topRatedFilter db)).
  split.
  - rewrite getMovies_eq. reflexivity.
  - assert (Hall : Forall (fun m => ratingAtLeast (7 # 1) m = true)
                     (orderedRows topRatedFilter db)).
    { apply Forall_forall. intros m Hm.
      apply orderBy_In in Hm. apply filter_In in Hm. destruct Hm as [_ Hw].
      unfold whereClause in Hw. simpl in Hw.
      rewrite andb_true_r in Hw. exact Hw. }
    split; [apply firstn_le_length|]. split.
    + apply Forall_forall. intros m Hm. apply In_firstn_inv in Hm.
      rewrite Forall_forall in Hall. apply Hall, Hm.
    + apply StronglySorted_firstn.
      apply (StronglySorted_weaken
               (fun a b => ordering rating desc a b = true)
               (fun m => ratingAtLeast (7 # 1) m = true)); [| exact Hall |].
      * intros a b Ha Hb. unfold ratingAtLeast, ratedAtLeast in *. simpl.
        destruct (Movie.voteAverage a); [|discriminate].
        destruct (Movie.voteAverage b); [|discriminate].
        simpl. auto.
      * apply (orderBy_sorted (ordering rating desc)
                 rating_desc_total rating_desc_trans).
Qed.


(** C10: a rating bound or a release-year bound equal to 0 is treated as
    absent: [getMovies] answers as it does without the bound, on every
    table; with [{ratingMax: 0}] the three sample rows, rated 8.4, 8.5 and
    7.9, are all returned. *)
Theorem zero_bounds_are_absent (filters : MovieFilter.t) (db : DB) :
  getMovies (withRatingMax (Some 0%Q) filters) db =
    getMovies (withRatingMax None filters) db /\
  getMovies (withRatingMin (Some 0%Q) filters) db =
    getMovies (withRatingMin None filters) db /\
  getMovies (withReleaseYearFrom (Some 0) filters) db =
    getMovies (withReleaseYearFrom None filters) db /\
  getMovies (withReleaseYearTo (Some 0) filters) db =
    getMovies (withReleaseYearTo None filters) db /\
  fst (getMovies (withRatingMax (Some 0%Q) noFilter) threeMovies) =
    Ok ([inception; parasite; dangal], 3%nat) /\
  fst (getMovies noFilter threeMovies) =
    Ok ([inception; parasite; dangal], 3%nat).
Proof.
  repeat apply conj; try (apply getMovies_ext; reflexivity);
    vm_compute; reflexivity.
Qed.

(** C2, at the failing input: with [{regions: ["ko"]}] no condition is
    pushed, and the English-language and the Hindi-language rows are
    returned with the Korean one, as they are with no filter at all. *)
Theorem getMovies_ignores_regions :
  MovieFilter.regions koreanFilter = Some ["ko"] /\
  conditions koreanFilter = [] /\
  fst (getMovies koreanFilter threeMovies) =
    Ok ([inception; parasite; dangal], 3%nat) /\
  Movie.originalLanguage inception = Some "en" /\
  Movie.originalLanguage dangal = Some "hi".
Proof.
  repeat apply conj; vm_compute; reflexivity.
Qed.

(** ** Watchlist and favorites *)

Lemma existsb_false_of_forallb {A} (p q : A -> bool) (l : list A) :
  (forall x, q x = true -> p x = false) ->
  forallb q l = true -> existsb p l = false.
Proof.
  intros Hpq. induction l as [|x l IH]; simpl; [reflexivity|].
  intros H. apply andb_true_iff in H. destruct H as [Hx Hl].
  rewrite (Hpq x Hx), (IH Hl). reflexivity.
Qed.

(** With ids drawn from the sequence, the new row collides with nothing:
    the only unique index of [watchlist] is its primary key. *)
Lemma addToWatchlist_never_conflicts (userId : string) (movieId : Z) (db : DB) :
  watchlistFresh db = true ->
  addToWatchlist userId movieId db =
  (Ok (Some (Watchlist.mk (watchlist_seq db) userId movieId (Some (now db)))),
   setWatchlist
     (watchlist db ++ [Watchlist.mk (watchlist_seq db) userId movieId (Some (now db))])
     (watchlist_seq db + 1) db).
Proof.
  intros Hfresh. unfold addToWatchlist, violates, watchlist_unique. simpl.
  assert (Hnone :
    existsb (sameOn watchlist_col [ColId]
               (Watchlist.mk (watchlist_seq db) userId movieId (Some (now db))))
            (watchlist db) = false).
  { apply existsb_false_of_forallb
      with (q := fun r => Watchlist.id r <? watchlist_seq db); [|exact Hfresh].
    intros r Hr. simpl. rewrite andb_true_r. lia. }
  rewrite Hnone. reflexivity.
Qed.

Lemma addToFavorites_never_conflicts (userId : string) (movieId : Z) (db : DB) :
  favoritesFresh db = true ->
  addToFavorites userId movieId db =
  (Ok (Some (Favorite.mk (favorites_seq db) userId movieId (Some (now db)))),
   setFavorites
     (favorites db ++ [Favorite.mk (favorites_seq db) userId movieId (Some (now db))])
     (favorites_seq db + 1) db).
Proof.
  intros Hfresh. unfold addToFavorites, violates, favorites_unique. simpl.
  assert (Hnone :
    existsb (sameOn favorite_col [ColId]
               (Favorite.mk (favorites_seq db) userId movieId (Some (now db))))
            (favorites db) = false).
  { apply existsb_false_of_forallb
      with (q := fun r => Favorite.id r <? favorites_seq db); [|exact Hfresh].
    intros r Hr. simpl. rewrite andb_true_r. lia. }
  rewrite Hnone. reflexivity.
Qed.

Lemma forallb_impl {A} (p q : A -> bool) (l : list A) :
  (forall x, p x = true -> q x = true) ->
  forallb p l = true -> forallb q l = true.
Proof.
  intros Hpq. induction l as [|x l IH]; simpl; [reflexivity|].
  intros H. apply andb_true_iff in H. destruct H as [Hx Hl].
  rewrite (Hpq x Hx), (IH Hl). reflexivity.
Qed.

(** Every add stores one more row for the pair, whether or not the pair
    already has one, and keeps the ids below the sequence. *)
Lemma addToWatchlist_adds_a_row (userId : string) (movieId : Z) (db : DB) :
  watchlistFresh db = true ->
  watchlistRows userId movieId (snd (addToWatchlist userId movieId db)) =
    watchlistRows userId movieId db ++
    [Watchlist.mk (watchlist_seq db) userId movieId (Some (now db))] /\
  watchlistFresh (snd (addToWatchlist userId movieId db)) = true.
Proof.
  intros Hfresh. rewrite (addToWatchlist_never_conflicts _ _ _ Hfresh).
  unfold watchlistRows, watchlistFresh, setWatchlist. simpl. split.
  - rewrite filter_app. simpl. unfold watchlistKey at 2. simpl.
    rewrite String.eqb_refl, Z.eqb_refl. reflexivity.
  - rewrite forallb_app. simpl. apply andb_true_iff. split.
    + revert Hfresh. apply forallb_impl. intros r Hr. lia.
    + rewrite andb_true_r. lia.
Qed.

(** C3, at the failing input: on the empty database, adding ("user-1", 7)
    twice to the watchlist stores two rows for the pair, with ids 1 and 2;
    the same holds for the favorites. *)
Theorem add_twice_stores_two_rows :
  watchlistRows "user-1" 7
    (snd (addToWatchlist "user-1" 7 (snd (addToWatchlist "user-1" 7 emptyDB)))) =
    [Watchlist.mk 1 "user-1" 7 (Some 0); Watchlist.mk 2 "user-1" 7 (Some 0)] /\
  favoriteRows "user-1" 7
    (snd (addToFavorites "user-1" 7 (snd (addToFavorites "user-1" 7 emptyDB)))) =
    [Favorite.mk 1 "user-1" 7 (Some 0); Favorite.mk 2 "user-1" 7 (Some 0)].
Proof.
  split; vm_compute; reflexivity.
Qed.

Lemma filter_negb_idem {A} (p : A -> bool) (l : list A) :
  filter (fun x => negb (p x)) (filter (fun x => negb (p x)) l) =
  filter (fun x => negb (p x)) l.
Proof.
  induction l as [|x l IH]; simpl; [reflexivity|].
  destruct (p x) eqn:E; simpl; [exact IH|].
  rewrite E. simpl. now rewrite IH.
Qed.

Lemma filter_negb_absent {A} (p : A -> bool) (l : list A) :
  find p l = None -> filter (fun x => negb (p x)) l = l.
Proof.
  induction l as [|x l IH]; simpl; [reflexivity|].
  destruct (p x); simpl; [discriminate|].
  intros H. now rewrite (IH H).
Qed.

Lemma find_filter_negb {A} (p : A -> bool) (l : list A) :
  find p (filter (fun x => negb (p x)) l) = None.
Proof.
  induction l as [|x l IH]; simpl; [reflexivity|].
  destruct (p x) eqn:E; simpl; [exact IH|].
  rewrite E. exact IH.
Qed.

Lemma setWatchlist_same (db : DB) :
  setWatchlist (watchlist db) (watchlist_seq db) db = db.
Proof. destruct db; reflexivity. Qed.

Lemma setFavorites_same (db : DB) :
  setFavorites (favorites db) (favorites_seq db) db = db.
Proof. destruct db; reflexivity. Qed.

(** C9: [removeFromWatchlist] and [removeFromFavorites] always succeed;
    when the pair has no entry they leave the database as it is; after
    them the pair has no entry, and removing again changes nothing. *)
Theorem remove_is_idempotent (userId : string) (movieId : Z) (db : DB) :
  (exists db1,
     removeFromWatchlist userId movieId db = (Ok tt, db1) /\
     removeFromWatchlist userId movieId db1 = (Ok tt, db1) /\
     isInWatchlist userId movieId db1 = (Ok false, db1)) /\
  (exists db1,
     removeFromFavorites userId movieId db = (Ok tt, db1) /\
     removeFromFavorites userId movieId db1 = (Ok tt, db1) /\
     isInFavorites userId movieId db1 = (Ok false, db1)) /\
  (fst (isInWatchlist userId movieId db) = Ok false ->
   removeFromWatchlist userId movieId db = (Ok tt, db)) /\
  (fst (isInFavorites userId movieId db) = Ok false ->
   removeFromFavorites userId movieId db = (Ok tt, db)).
Proof.
  repeat apply conj.
  - eexists. split; [reflexivity|]. split.
    + unfold removeFromWatchlist, setWatchlist. simpl.
      rewrite filter_negb_idem. reflexivity.
    + unfold isInWatchlist, setWatchlist. simpl.
      rewrite find_filter_negb. reflexivity.
  - eexists. split; [reflexivity|]. split.
    + unfold removeFromFavorites, setFavorites. simpl.
      rewrite filter_negb_idem. reflexivity.
    + unfold isInFavorites, setFavorites. simpl.
      rewrite find_filter_negb. reflexivity.
  - unfold isInWatchlist, removeFromWatchlist. simpl. intros H.
    destruct (find (watchlistKey userId movieId) (watchlist db)) eqn:E;
      [discriminate|].
    rewrite (filter_negb_absent _ _ E), setWatchlist_same. reflexivity.
  - unfold isInFavorites, removeFromFavorites. simpl. intros H.
    destruct (find (favoriteKey userId movieId) (favorites db)) eqn:E;
      [discriminate|].
    rewrite (filter_negb_absent _ _ E), setFavorites_same. reflexivity.
Qed.

(** The removals at a pair without an entry, and at a pair with one. *)
Lemma remove_is_idempotent_witness :
  removeFromWatchlist "user-1" 7 emptyDB = (Ok tt, emptyDB) /\
  removeFromFavorites "user-1" 7 emptyDB = (Ok tt, emptyDB) /\
  exists db1,
    removeFromWatchlist "user-1" 7 oneWatchlistRow = (Ok tt, db1) /\
    removeFromWatchlist "user-1" 7 db1 = (Ok tt, db1) /\
    isInWatchlist "user-1" 7 db1 = (Ok false, db1).
Proof.
  destruct (remove_is_idempotent "user-1" 7 emptyDB) as [_ [_ [Hw Hf]]].
  destruct (remove_is_idempotent "user-1" 7 oneWatchlistRow) as [Hr _].
  split; [apply Hw; reflexivity|].
  split; [apply Hf; reflexivity|].
  exact Hr.
Defined.

(** ** Ratings *)

(** The [ratings] table declares no unique index on (user_id, movie_id),
    so the upsert of [rateMovie] has no index to arbitrate and is
    rejected, whatever the table holds; a rating that does not fit
    [decimal(2,1)] is rejected for that before. *)
Lemma rateMovie_rejected (userId : string) (movieId : Z) (rating : Q) (db : DB) :
  rateMovie userId movieId rating db =
  (Err (match toDecimal 2 1 rating with
        | Ok _ => NoArbiterIndex
        | Err e => e
        end), db).
Proof.
  unfold rateMovie, upsertRating.
  destruct (toDecimal 2 1 rating); reflexivity.
Qed.

(** With a unique index on the pair the same statement is an upsert: the
    second rating overwrites the first in the single row of the pair. *)
Lemma upsertRating_with_pair_index_overwrites :
  getUserRatingRows "user-1" 7
    (snd (upsertRating ratings_unique_per_pair "user-1" 7 (9 # 1)
       (snd (upsertRating ratings_unique_per_pair "user-1" 7 (8 # 1) emptyDB)))) =
  [Rating.mk 1 "user-1" 7 (90 # 10) (Some 0) (Some 0)].
Proof. vm_compute. reflexivity. Qed.

(** C4, at the failing input: on the empty database both calls of
    [rateMovie] for ("user-1", 7), with 8 and then 9, are rejected, and no
    rating row exists for the pair afterwards. *)
Theorem rateMovie_twice_stores_nothing :
  fst (rateMovie "user-1" 7 (8 # 1) emptyDB) = Err NoArbiterIndex /\
  fst (rateMovie "user-1" 7 (9 # 1) (snd (rateMovie "user-1" 7 (8 # 1) emptyDB))) =
    Err NoArbiterIndex /\
  getUserRatingRows "user-1" 7
    (snd (rateMovie "user-1" 7 (9 # 1) (snd (rateMovie "user-1" 7 (8 # 1) emptyDB)))) = [] /\
  hasArbiter rateMovie_target ratings_unique = false.
Proof.
  repeat apply conj; vm_compute; reflexivity.
Qed.

(** ** The sync handlers *)

Lemma existsb_find {A} (p : A -> bool) (l : list A) :
  existsb p l = true -> exists x, find p l = Some x.
Proof.
  induction l as [|x l IH]; simpl; [discriminate|].
  destruct (p x); simpl; [eauto | exact IH].
Qed.

Lemma forallb_of_existsb_false {A} (p q : A -> bool) (l : list A) :
  (forall x, p x = false -> q x = true) ->
  existsb p l = false -> forallb q l = true.
Proof.
  intros Hpq. induction l as [|x l IH]; simpl; [reflexivity|].
  intros H. apply orb_false_iff in H. destruct H as [Hx Hl].
  rewrite (Hpq x Hx), (IH Hl). reflexivity.
Qed.

Lemma absentFrom_app_l (l l' : list Movie.t) (a : Movie.t) :
  absentFrom (l ++ l') a = true -> absentFrom l a = true.
Proof.
  unfold absentFrom. rewrite forallb_app.
  intros H. apply andb_true_iff in H. apply H.
Qed.

(** [createMovie] touches no existing row: it appends at most one row,
    whose external id no existing row has. *)
Lemma createMovie_extends (movie : InsertMovie.t) (db : DB) :
  exists added,
    movies (snd (createMovie movie db)) = movies db ++ added /\
    Forall (fun a => absentFrom (movies db) a = true) added /\
    (List.length added <= 1)%nat.
Proof.
  assert (Hnone : forall r : Result Movie.t * DB,
    movies (snd r) = movies db ->
    exists added, movies (snd r) = movies db ++ added /\
      Forall (fun a => absentFrom (movies db) a = true) added /\
      (List.length added <= 1)%nat).
  { intros r ->. exists []. rewrite app_nil_r.
    split; [reflexivity|]. split; [constructor | simpl; lia]. }
  unfold createMovie.
  destruct (negb _); [apply Hnone; reflexivity|].
  destruct (optDecimal 3 1 (InsertMovie.voteAverage movie)) as [va|e];
    [|apply Hnone; reflexivity].
  destruct (optDecimal 10 3 (InsertMovie.popularity movie)) as [pop|e];
    [|apply Hnone; reflexivity].
  match goal with
  | |- context [violates movie_col movies_unique (movies db) ?r] =>
      set (row := r);
      destruct (violates movie_col movies_unique (movies db) row) eqn:E
  end.
  - apply Hnone; reflexivity.
  - exists [row]. simpl. split; [reflexivity|]. split; [|lia].
    constructor; [|constructor].
    unfold violates, movies_unique in E. simpl in E.
    rewrite orb_false_r in E. apply orb_false_iff in E. destruct E as [_ E].
    unfold absentFrom. revert E. apply forallb_of_existsb_false.
    intros r. simpl. rewrite andb_true_r. intros H.
    rewrite Z.eqb_sym, H. reflexivity.
Qed.

Lemma find_none_existsb {A} (p : A -> bool) (l : list A) :
  find p l = None -> existsb p l = false.
Proof.
  induction l as [|x l IH]; simpl; [reflexivity|].
  destruct (p x); simpl; [discriminate | exact IH].
Qed.

(** Rows are only appended, so an item that is resident stays resident and
    the items without a local row can only become fewer. *)
Lemma resident_app (db db1 : DB) (added : list Movie.t) (t : TMDBMovie.t) :
  movies db1 = movies db ++ added ->
  resident db t = true -> resident db1 t = true.
Proof.
  unfold resident. intros -> H. rewrite existsb_app, H. reflexivity.
Qed.

Lemma missing_shrinks (db db1 : DB) (added : list Movie.t) (l : list TMDBMovie.t) :
  movies db1 = movies db ++ added ->
  (List.length (missing db1 l) <= List.length (missing db l))%nat.
Proof.
  intros Hext. unfold missing.
  induction l as [|t l IH]; simpl; [lia|].
  destruct (resident db t) eqn:E; simpl.
  - rewrite (resident_app db db1 added t Hext E). simpl. exact IH.
  - destruct (resident db1 t); simpl; lia.
Qed.

Section SyncProperties.
Variable getMovieDetails : Z -> option TMDBMovie.t.

Lemma syncOne_resident (tmdbMovie : TMDBMovie.t) (m : Movie.t) (db : DB) :
  find (fun r => Movie.tmdbId r =? TMDBMovie.id tmdbMovie) (movies db) = Some m ->
  syncOne getMovieDetails tmdbMovie db = (Ok m, db).
Proof.
  intros H. unfold syncOne, bind, getMovieByTmdbId. rewrite H. reflexivity.
Qed.

Lemma syncOne_extends (tmdbMovie : TMDBMovie.t) (db : DB) :
  exists added,
    movies (snd (syncOne getMovieDetails tmdbMovie db)) = movies db ++ added /\
    Forall (fun a => absentFrom (movies db) a = true) added /\
    (List.length added <= List.length (missing db [tmdbMovie]))%nat.
Proof.
  unfold syncOne, bind, getMovieByTmdbId, missing, resident. simpl.
  destruct (find _ (movies db)) as [m|] eqn:E.
  - exists []. simpl. rewrite app_nil_r.
    split; [reflexivity|]. split; [constructor | lia].
  - rewrite (find_none_existsb _ _ E). simpl.
    destruct (getMovieDetails (TMDBMovie.id tmdbMovie)) as [d|]; simpl.
    + apply createMovie_extends.
    + exists []. simpl. rewrite app_nil_r.
      split; [reflexivity|]. split; [constructor | lia].
Qed.

Lemma syncLoop_cons (tmdbMovie : TMDBMovie.t) (rest : list TMDBMovie.t)
  (syncedMovies : list Movie.t) (db : DB) :
  syncLoop getMovieDetails (tmdbMovie :: rest) syncedMovies db =
  match syncOne getMovieDetails tmdbMovie db with
  | (Ok movie, db') => syncLoop getMovieDetails rest (syncedMovies ++ [movie]) db'
  | (Err e, db') => (Err e, db')
  end.
Proof. reflexivity. Qed.

Lemma syncLoop_extends (results : list TMDBMovie.t) :
  forall (syncedMovies : list Movie.t) (db : DB),
  exists added,
    movies (snd (syncLoop getMovieDetails results syncedMovies db)) =
      movies db ++ added /\
    Forall (fun a => absentFrom (movies db) a = true) added /\
    (List.length added <= List.length (missing db results))%nat.
Proof.
  induction results as [|t rest IH]; intros synced db.
  - exists []. simpl. rewrite app_nil_r.
    split; [reflexivity|]. split; [constructor | lia].
  - rewrite syncLoop_cons.
    destruct (syncOne_extends t db) as [added1 [H1 [A1 L1]]].
    assert (Hcons : List.length (missing db (t :: rest)) =
                    (List.length (missing db [t]) +
                     List.length (missing db rest))%nat).
    { unfold missing. simpl. destruct (resident db t); reflexivity. }
    destruct (syncOne getMovieDetails t db) as [[m|e] db1]; simpl in H1.
    + destruct (IH (synced ++ [m]) db1) as [added2 [H2 [A2 L2]]].
      exists (added1 ++ added2). split; [|split].
      * rewrite H2, H1, app_assoc. reflexivity.
      * apply Forall_app. split; [exact A1|].
        rewrite Forall_forall in *. intros a Ha.
        apply absentFrom_app_l with added1. rewrite <- H1. apply A2, Ha.
      * pose proof (missing_shrinks db db1 added1 rest H1).
        rewrite length_app. lia.
    + exists added1. split; [exact H1|]. split; [exact A1|]. lia.
Qed.

Lemma syncLoop_resident (results : list TMDBMovie.t) (db : DB) :
  forall syncedMovies,
  forallb (resident db) results = true ->
  exists rows,
    syncLoop getMovieDetails results syncedMovies db = (Ok (syncedMovies ++ rows), db) /\
    map Some rows = localRows db results.
Proof.
  induction results as [|t rest IH]; intros synced Hres.
  - exists []. simpl. rewrite app_nil_r. split; reflexivity.
  - simpl in Hres. apply andb_true_iff in Hres. destruct Hres as [Ht Hrest].
    destruct (existsb_find _ _ Ht) as [m Hm].
    destruct (IH (synced ++ [m]) Hrest) as [rows [Hloop Hrows]].
    exists (m :: rows). split.
    + rewrite syncLoop_cons, (syncOne_resident t m db Hm), Hloop.
      rewrite <- app_assoc. reflexivity.
    + simpl. rewrite Hm, Hrows. reflexivity.
Qed.

(** C7: a sync call changes no row the [movies] table already holds: the
    table afterwards is the table before followed by the inserted rows,
    no inserted row has an external id that was present, and there are at
    most as many inserted rows as listing items without a local row.  When
    every item of the listing is resident, the call returns the local row
    of each item, in listing order, with the listing's total, and the
    database is left as it was: nothing is inserted. *)
Theorem sync_leaves_resident_rows (listing : TMDBResponse.t) (db : DB) :
  (exists added,
     movies (snd (syncListing getMovieDetails (Some listing) db)) =
       movies db ++ added /\
     Forall (fun a => absentFrom (movies db) a = true) added /\
     (List.length added <=
      List.length (missing db (TMDBResponse.results listing)))%nat) /\
  (forallb (resident db) (TMDBResponse.results listing) = true ->
   exists rows,
     syncListing getMovieDetails (Some listing) db =
       (Ok (rows, TMDBResponse.total_results listing), db) /\
     map Some rows = localRows db (TMDBResponse.results listing)).
Proof.
  split.
  - destruct (syncLoop_extends (TMDBResponse.results listing) [] db)
      as [added [H A]].
    exists added. split; [|exact A].
    unfold syncListing, bind, fetched, ret. simpl.
    destruct (syncLoop getMovieDetails (TMDBResponse.results listing) [] db)
      as [[rows|e] db1]; exact H.
  - intros Hres.
    destruct (syncLoop_resident (TMDBResponse.results listing) db [] Hres)
      as [rows [Hloop Hrows]].
    exists rows. split; [|exact Hrows].
    unfold syncListing, bind, fetched, ret. simpl.
    rewrite Hloop. reflexivity.
Qed.
End SyncProperties.

(** Both items of the sample listing are resident in [twoMovies]: the two
    local rows are returned and nothing is fetched or inserted. *)
Lemma sync_leaves_resident_rows_witness :
  forallb (resident twoMovies) (TMDBResponse.results sampleListing) = true /\
  exists rows,
    syncListing noDetails (Some sampleListing) twoMovies =
      (Ok (rows, 10000), twoMovies) /\
    map Some rows = [Some inception; Some parasite].
Proof.
  split; [reflexivity|].
  apply (proj2 (sync_leaves_resident_rows noDetails sampleListing twoMovies)).
  reflexivity.
Defined.

(** * Further properties of the storage layer *)

(** ** [getMovies]: rows, pages and order *)

(** X1: [getMovies] returns only rows of the [movies] table, each of
    which satisfies every condition the filter pushed, and it leaves the
    database as it was. *)
Theorem getMovies_returns_matching_rows (filters : MovieFilter.t) (db : DB) :
  Forall (fun m => In m (movies db) /\ whereClause filters m = true)
         (pageOf (fst (getMovies filters db))) /\
  snd (getMovies filters db) = db.
Proof.
  split.
  - apply Forall_forall. intros m. apply getMovies_page_In.
  - rewrite getMovies_eq.
    destruct (usesGenresOrYears filters); [reflexivity|].
    destruct (offsetOf filters <? 0); reflexivity.
Qed.

Lemma firstn_plus {A} (n k : nat) (l : list A) :
  firstn n l ++ firstn k (skipn n l) = firstn (n + k) l.
Proof.
  revert l. induction n as [|n IH]; intros l; simpl.
  - reflexivity.
  - destruct l as [|x l]; simpl.
    + now rewrite firstn_nil.
    + now rewrite IH.
Qed.

Lemma getMovies_nth_page (filters : MovieFilter.t) (db : DB) (k : nat) :
  usesGenresOrYears filters = false ->
  0 < MovieFilter.limit filters ->
  fst (getMovies (withPage (Z.of_nat (S k)) filters) db) =
  Ok (firstn (Z.to_nat (MovieFilter.limit filters))
        (skipn (k * Z.to_nat (MovieFilter.limit filters)) (orderedRows filters db)),
      List.length (matchingRows filters db)).
Proof.
  intros Hu Hl.
  assert (Hp : exists p, Z.of_nat (S k) = p /\ p = Z.of_nat k + 1)
    by (eexists; split; [reflexivity | lia]).
  destruct Hp as [p [-> Hp]].
  rewrite getMovies_eq.
  change (usesGenresOrYears (withPage p filters)) with (usesGenresOrYears filters).
  rewrite Hu.
  change (orderedRows (withPage p filters) db) with (orderedRows filters db).
  change (matchingRows (withPage p filters) db) with (matchingRows filters db).
  unfold offsetOf, effectivePage, effectiveLimit, orDefault.
  change (MovieFilter.page (withPage p filters)) with p.
  change (MovieFilter.limit (withPage p filters)) with (MovieFilter.limit filters).
  destruct (Z.eqb_spec p 0) as [E|_]; [lia|].
  destruct (Z.eqb_spec (MovieFilter.limit filters) 0) as [E|_]; [lia|].
  destruct (Z.ltb_spec ((p - 1) * MovieFilter.limit filters) 0) as [E|_]; [nia|].
  unfold fst. rewrite limitRows_firstn by lia.
  replace (Z.to_nat ((p - 1) * MovieFilter.limit filters))
    with (k * Z.to_nat (MovieFilter.limit filters))%nat by nia.
  reflexivity.
Qed.

Lemma pages_tile {A} (size : nat) (l : list A) (n : nat) :
  flat_map (fun k => firstn size (skipn (k * size) l)) (seq 0 n) =
  firstn (n * size) l.
Proof.
  induction n as [|n IH].
  - reflexivity.
  - rewrite seq_S, flat_map_app, IH. cbn [flat_map]. rewrite app_nil_r.
    rewrite firstn_plus. f_equal. lia.
Qed.

(** X2: paging neither skips nor repeats a row.  Take a filter without
    genre or release-year condition and with a positive limit, and a table
    in which no two matching rows share the sort key, so that the order of
    the query is determined: [ordered] is the matching rows in that order.
    Then page [k + 1] is the slice of [ordered] that starts after
    [k * limit] rows, and pages 1 to [n], one after the other, are the
    first [n * limit] rows of [ordered]. *)
Theorem getMovies_pages_tile (filters : MovieFilter.t) (db : DB) (n : nat)
  (ordered : list Movie.t) :
  usesGenresOrYears filters = false ->
  0 < MovieFilter.limit filters ->
  (forall a b,
     In a (matchingRows filters db) -> In b (matchingRows filters db) ->
     effectiveOrdering filters a b = true ->
     effectiveOrdering filters b a = true -> a = b) ->
  Permutation ordered (matchingRows filters db) ->
  StronglySorted (fun a b => effectiveOrdering filters a b = true) ordered ->
  (forall k,
     fst (getMovies (withPage (Z.of_nat (S k)) filters) db) =
     Ok (firstn (Z.to_nat (MovieFilter.limit filters))
           (skipn (k * Z.to_nat (MovieFilter.limit filters)) ordered),
         List.length ordered)) /\
  flat_map (fun p => pageOf (fst (getMovies (withPage (Z.of_nat p) filters) db)))
           (seq 1 n) =
  firstn (n * Z.to_nat (MovieFilter.limit filters)) ordered.
Proof.
  intros Hu Hl Hkeys Hperm Hsorted.
  assert (E : ordered = orderedRows filters db).
  { apply (sorted_permutation_unique (effectiveOrdering filters)).
    - intros a b Ha Hb. apply Hkeys; apply (Permutation_in _ Hperm); assumption.
    - apply perm_trans with (matchingRows filters db); [exact Hperm|].
      apply Permutation_sym, orderBy_perm.
    - exact Hsorted.
    - apply effectiveOrdering_sorted. }
  assert (Hpage : forall k,
    fst (getMovies (withPage (Z.of_nat (S k)) filters) db) =
    Ok (firstn (Z.to_nat (MovieFilter.limit filters))
          (skipn (k * Z.to_nat (MovieFilter.limit filters)) ordered),
        List.length ordered)).
  { intros k. rewrite (getMovies_nth_page filters db k Hu Hl), <- E.
    rewrite (Permutation_length Hperm). reflexivity. }
  split; [exact Hpage|].
  rewrite <- (pages_tile (Z.to_nat (MovieFilter.limit filters)) ordered n).
  rewrite <- seq_shift, flat_map_concat_map, map_map, <- flat_map_concat_map.
  apply flat_map_ext. intros k. rewrite Hpage. reflexivity.
Qed.

Lemma getMovies_pages_tile_witness :
  flat_map (fun p => pageOf (fst (getMovies (withPage (Z.of_nat p) firstPageOfTwo)
                                    threeMovies)))
           (seq 1 2) =
  [inception; parasite; dangal].
Proof.
  apply (getMovies_pages_tile firstPageOfTwo threeMovies 2
           [inception; parasite; dangal]).
  - reflexivity.
  - reflexivity.
  - intros a b Ha Hb Hab Hba. vm_compute in Ha, Hb.
    destruct Ha as [<-|[<-|[<-|[]]]]; destruct Hb as [<-|[<-|[<-|[]]]];
      try reflexivity; vm_compute in Hab, Hba; discriminate.
  - apply Permutation_refl.
  - repeat constructor.
Defined.



(** X4: whatever the sort key and direction, the returned page is in the
    order asked for: each row comes before every later row of the page in
    the ordering of the filter (popularity descending when none is
    given). *)
Theorem getMovies_page_sorted (filters : MovieFilter.t) (db : DB) :
  StronglySorted (fun a b => effectiveOrdering filters a b = true)
                 (pageOf (fst (getMovies filters db))).
Proof.
  rewrite getMovies_eq.
  destruct (usesGenresOrYears filters); [constructor|].
  destruct (offsetOf filters <? 0); [constructor|].
  simpl. apply StronglySorted_limitRows, StronglySorted_skipn.
  apply effectiveOrdering_sorted.
Qed.

(** ** [getMovies]: the genre and rating conditions *)

(** X5: the genre filter and the release-year bounds do not work: a call
    whose filter has a genre list that is not empty or a release-year
    bound that is not 0 is rejected, because its conditions call
    [JSON_SEARCH] and [YEAR], and no other call is rejected for that.  So
    the listing by genres 18 and 35 fails although every sample row has
    genre 18. *)
Theorem getMovies_genre_and_year_filters_rejected (filters : MovieFilter.t)
  (db : DB) :
  match fst (getMovies filters db) with
  | Err UndefinedFunction => usesGenresOrYears filters = true
  | _ => usesGenresOrYears filters = false
  end /\
  Forall (fun m => Movie.genres m = Some [Genre.mk 18 "Drama"]) (movies threeMovies) /\
  getMovies (MovieFilter.mk (Some [18; 35]) None None None None None None None
               None None 1 20) threeMovies = (Err UndefinedFunction, threeMovies) /\
  getMovies (withReleaseYearFrom (Some 2019) noFilter) threeMovies =
    (Err UndefinedFunction, threeMovies).
Proof.
  repeat apply conj.
  - rewrite getMovies_eq.
    destruct (usesGenresOrYears filters); [reflexivity|].
    destruct (offsetOf filters <? 0); reflexivity.
  - repeat constructor.
  - reflexivity.
  - reflexivity.
Qed.


Lemma filter_length_le {A} (p q : A -> bool) (l : list A) :
  (forall x, p x = true -> q x = true) ->
  (List.length (filter p l) <= List.length (filter q l))%nat.
Proof.
  intros H. induction l as [|x l IH]; simpl; [lia|].
  destruct (p x) eqn:E.
  - rewrite (H x E). simpl. lia.
  - destruct (q x); simpl; lia.
Qed.



(** X7: raising the minimum rating never adds results: for [q <= q'] with
    [q'] not 0, the total under [ratingMin: q'] is at most the total under
    [ratingMin: q], the other fields being equal. *)
Theorem getMovies_ratingMin_monotone (filters : MovieFilter.t) (db : DB)
  (q q' : Q) :
  (q <= q')%Q ->
  truthyQ (Some q') = true ->
  (totalOf (fst (getMovies (withRatingMin (Some q') filters) db)) <=
   totalOf (fst (getMovies (withRatingMin (Some q) filters) db)))%nat.
Proof.
  intros Hle Tq'. rewrite !getMovies_eq.
  change (usesGenresOrYears (withRatingMin (Some q') filters))
    with (usesGenresOrYears (withRatingMin (Some q) filters)).
  change (offsetOf (withRatingMin (Some q') filters))
    with (offsetOf (withRatingMin (Some q) filters)).
  destruct (usesGenresOrYears (withRatingMin (Some q) filters)); [simpl; lia|].
  destruct (offsetOf (withRatingMin (Some q) filters) <? 0); [simpl; lia|].
  simpl. unfold matchingRows. apply filter_length_le. intros m.
  rewrite !whereClause_fields.
  change (genreConditions (withRatingMin (Some q') filters))
    with (genreConditions (withRatingMin (Some q) filters)).
  change (releaseYearFromConditions (withRatingMin (Some q') filters))
    with (releaseYearFromConditions (withRatingMin (Some q) filters)).
  change (releaseYearToConditions (withRatingMin (Some q') filters))
    with (releaseYearToConditions (withRatingMin (Some q) filters)).
  change (ratingMaxConditions (withRatingMin (Some q') filters))
    with (ratingMaxConditions (withRatingMin (Some q) filters)).
  change (runtimeConditions (withRatingMin (Some q') filters))
    with (runtimeConditions (withRatingMin (Some q) filters)).
  intros H.
  repeat (apply andb_true_iff in H; destruct H as [?H H]).
  repeat (apply andb_true_iff; split); try assumption.
  unfold ratingMinConditions in *.
  cbn [withRatingMin MovieFilter.ratingMin] in *.
  rewrite Tq' in *. destruct (truthyQ (Some q)); [|reflexivity].
  cbn [forallb holds] in *.
  destruct (Movie.voteAverage m) as [v|]; [|discriminate].
  rewrite andb_true_r in *. apply Qle_bool_iff.
  apply Qle_trans with q'; [exact Hle | now apply Qle_bool_iff].
Qed.

Lemma getMovies_ratingMin_monotone_witness :
  (totalOf (fst (getMovies (withRatingMin (Some (8 # 1)) noFilter) threeMovies)) <=
   totalOf (fst (getMovies (withRatingMin (Some (7 # 1)) noFilter) threeMovies)))%nat.
Proof.
  apply (getMovies_ratingMin_monotone noFilter threeMovies (7 # 1) (8 # 1)).
  - vm_compute. discriminate.
  - reflexivity.
Defined.

(** ** [searchMovies] *)

Lemma like_percent (p s : string) :
  like (String "%" p) s =
  like p s ||
  match s with
  | EmptyString => false
  | String _ s' => like (String "%" p) s'
  end.
Proof. destruct s; reflexivity. Qed.


Lemma like_percent_only (s : string) : like "%" s = true.
Proof.
  induction s as [|d s IH]; rewrite like_percent; [reflexivity|].
  rewrite IH. apply orb_true_r.
Qed.




Lemma searchMovies_eq (query : string) (page limit : option Z) (db : DB) :
  fst (searchMovies query page limit db) =
  if (param page 1 - 1) * param limit 20 <? 0 then Err NegativeOffset
  else Ok (limitRows (param limit 20)
             (skipn (Z.to_nat ((param page 1 - 1) * param limit 20))
                (orderBy (ordering popularity desc)
                   (filter (searchCondition query) (movies db)))),
           List.length (filter (searchCondition query) (movies db))).
Proof.
  unfold searchMovies.
  destruct ((param page 1 - 1) * param limit 20 <? 0); reflexivity.
Qed.



Lemma percents_append (n : nat) : (percents n ++ "%")%string = percents (S n).
Proof.
  induction n as [|n IH]; [reflexivity|].
  cbn [percents String.append]. rewrite IH. reflexivity.
Qed.

Lemma like_percents (n : nat) (s : string) : like (percents (S n)) s = true.
Proof.
  revert s. induction n as [|n IH]; intros s.
  - apply like_percent_only.
  - change (percents (S (S n))) with (String "%" (percents (S n))).
    rewrite like_percent, IH. reflexivity.
Qed.

(** X9: the query goes into the LIKE pattern as it is, so a query made
    of [%] characters only matches every movie: the total is the size of
    the table.  The search handler refuses only a missing or an empty
    query (400); a query of [%] characters passes and the answer carries
    that total. *)
Theorem searchMovies_percent_matches_all (n : nat) (page limit : option Z)
  (db : DB) :
  filter (searchCondition (percents n)) (movies db) = movies db /\
  match fst (searchMovies (percents n) page limit db) with
  | Ok (_, total) => total = List.length (movies db)
  | Err _ => param limit 20 < 0 \/ (param page 1 - 1) * param limit 20 < 0
  end /\
  match searchRoute (Some (percents (S n))) page limit db with
  | Json (_, total) => total = List.length (movies db)
  | Status code _ =>
      code = 500 /\ (param limit 20 < 0 \/ (param page 1 - 1) * param limit 20 < 0)
  end /\
  searchRoute None page limit db = Status 400 "Search query is required" /\
  searchRoute (Some "") page limit db = Status 400 "Search query is required".
Proof.
  assert (Hall : forall k, filter (searchCondition (percents k)) (movies db) = movies db).
  { intros k. rewrite <- (filter_all (movies db)) at 2. apply filter_same.
    intros m. unfold searchCondition, searchPattern.
    rewrite percents_append.
    change (String "%" (percents (S k))) with (percents (S (S k))).
    rewrite like_percents. reflexivity. }
  split; [apply Hall|]. split; [|split; [|split; reflexivity]].
  - rewrite searchMovies_eq, Hall.
    destruct (Z.ltb_spec ((param page 1 - 1) * param limit 20) 0) as [E|_];
      [right; exact E | reflexivity].
  - unfold searchRoute.
    change (String.eqb (percents (S n)) "") with false. cbv iota.
    rewrite searchMovies_eq, Hall. cbn [param].
    destruct (Z.ltb_spec ((param page 1 - 1) * param limit 20) 0) as [E|_];
      [split; [reflexivity | right; exact E] | reflexivity].
Qed.

(** ** [getTrendingMovies] *)



(** ** Movie rows: [createMovie], [getMovieByTmdbId], [getMovieById],
    [updateMovie] *)

Lemma find_app_new {A} (p : A -> bool) (l : list A) (y : A) :
  existsb p l = false -> p y = true -> find p (l ++ [y]) = Some y.
Proof.
  induction l as [|x l IH]; simpl; intros Hl Hy.
  - now rewrite Hy.
  - apply orb_false_iff in Hl. destruct Hl as [Hx Hl].
    rewrite Hx. apply IH; assumption.
Qed.

Lemma violates_movie (rows : list Movie.t) (row : Movie.t) :
  violates movie_col movies_unique rows row =
  existsb (fun r => Movie.id r =? Movie.id row) rows ||
  existsb (fun r => Movie.tmdbId r =? Movie.tmdbId row) rows.
Proof.
  unfold violates, movies_unique. cbn [existsb]. rewrite orb_false_r.
  f_equal; induction rows as [|r rows IH]; simpl; try reflexivity;
    rewrite IH, andb_true_r, Z.eqb_sym; reflexivity.
Qed.

Lemma createMovie_ok_inv (movie : InsertMovie.t) (db db' : DB) (row : Movie.t) :
  createMovie movie db = (Ok row, db') ->
  violates movie_col movies_unique (movies db) row = false /\
  db' = setMovies (movies db ++ [row]) (movies_seq db + 1) db /\
  Movie.id row = movies_seq db /\
  Movie.tmdbId row = InsertMovie.tmdbId movie /\
  Movie.title row = InsertMovie.title movie.
Proof.
  unfold createMovie.
  destruct (negb _); [discriminate|].
  destruct (optDecimal 3 1 (InsertMovie.voteAverage movie)) as [va|e];
    [|discriminate].
  destruct (optDecimal 10 3 (InsertMovie.popularity movie)) as [pop|e];
    [|discriminate].
  match goal with
  | |- context [violates movie_col movies_unique (movies db) ?r] =>
      destruct (violates movie_col movies_unique (movies db) r) eqn:E
  end; [discriminate|].
  intros H. inversion H; subst. repeat split; try reflexivity. exact E.
Qed.

(** A rejected [createMovie] changes no row of any table; the sequence of
    [movies] may have moved on. *)
Lemma createMovie_err_inv (movie : InsertMovie.t) (db db' : DB) (e : DbError) :
  createMovie movie db = (Err e, db') ->
  db' = db \/ db' = setMovies (movies db) (movies_seq db + 1) db.
Proof.
  unfold createMovie.
  destruct (negb _); [intros H; inversion H; now left|].
  destruct (optDecimal 3 1 (InsertMovie.voteAverage movie)) as [va|e1];
    [|intros H; inversion H; now left].
  destruct (optDecimal 10 3 (InsertMovie.popularity movie)) as [pop|e2];
    [|intros H; inversion H; now left].
  match goal with
  | |- context [violates movie_col movies_unique (movies db) ?r] =>
      destruct (violates movie_col movies_unique (movies db) r)
  end; [|discriminate].
  intros H. inversion H. now right.
Qed.

(** X11: a movie that [createMovie] stored is found again: after a
    successful call the new row is the last row of the table, it carries
    the external id and title that were passed, and both
    [getMovieByTmdbId] on that external id and [getMovieById] on the new
    id return it. *)
Theorem createMovie_then_lookup (movie : InsertMovie.t) (db db' : DB)
  (row : Movie.t) :
  createMovie movie db = (Ok row, db') ->
  movies db' = movies db ++ [row] /\
  Movie.tmdbId row = InsertMovie.tmdbId movie /\
  Movie.title row = InsertMovie.title movie /\
  getMovieByTmdbId (InsertMovie.tmdbId movie) db' = (Ok (Some row), db') /\
  getMovieById (Movie.id row) db' = (Ok (Some row), db').
Proof.
  intros H. apply createMovie_ok_inv in H.
  destruct H as [Hv [-> [Hid [Ht Htitle]]]].
  rewrite violates_movie in Hv. apply orb_false_iff in Hv.
  destruct Hv as [Hv1 Hv2].
  split; [reflexivity|]. split; [exact Ht|]. split; [exact Htitle|].
  unfold getMovieByTmdbId, getMovieById. cbn [movies setMovies]. split.
  - rewrite find_app_new; [reflexivity | |].
    + rewrite <- Ht. exact Hv2.
    + cbn beta. rewrite Ht. apply Z.eqb_refl.
  - rewrite find_app_new; [reflexivity | exact Hv1 | apply Z.eqb_refl].
Qed.

Lemma createMovie_then_lookup_witness :
  exists row db',
    createMovie (toInsertMovie (sampleDetails 603 "The Matrix")) threeMovies =
      (Ok row, db') /\
    getMovieByTmdbId 603 db' = (Ok (Some row), db') /\
    getMovieById 4 db' = (Ok (Some row), db').
Proof.
  destruct (createMovie (toInsertMovie (sampleDetails 603 "The Matrix")) threeMovies)
    as [[row|e] db'] eqn:E; [|vm_compute in E; discriminate E].
  exists row, db'. split; [reflexivity|].
  destruct (createMovie_then_lookup _ _ _ _ E) as [_ [_ [_ [H1 H2]]]].
  split; [exact H1|].
  assert (Hid : Movie.id row = 4) by (vm_compute in E; inversion E; reflexivity).
  rewrite <- Hid. exact H2.
Defined.

(** X12: [createMovie] never overwrites and never duplicates a movie.  A
    call succeeds only when no row has the external id and the external
    id fits the [integer] column, and it then appends the new row; a call
    that fails changes no row of any table (the sequence of [movies] may
    have moved on).  So creating Inception again is rejected as a
    duplicate, with the three rows as they were and the next id 5 instead
    of 4; and the external id 2147483648 is rejected as out of range. *)
Theorem createMovie_never_overwrites (movie : InsertMovie.t) (db : DB) :
  match createMovie movie db with
  | (Ok row, db') =>
      existsb (fun r => Movie.tmdbId r =? InsertMovie.tmdbId movie) (movies db) = false /\
      int4 (InsertMovie.tmdbId movie) = true /\
      movies db' = movies db ++ [row]
  | (Err _, db') =>
      movies db' = movies db /\ movies_seq db <= movies_seq db' /\
      watchlist db' = watchlist db /\ favorites db' = favorites db /\
      ratings db' = ratings db
  end /\
  createMovie (toInsertMovie (sampleDetails 27205 "Inception")) threeMovies =
    (Err UniqueViolation, setMovies [inception; parasite; dangal] 5 emptyDB) /\
  movies_seq threeMovies = 4 /\
  createMovie (toInsertMovie (sampleDetails 2147483648 "Out of range")) threeMovies =
    (Err IntegerOutOfRange, threeMovies).
Proof.
  split; [|repeat apply conj; vm_compute; reflexivity].
  destruct (createMovie movie db) as [[row|e] db'] eqn:E.
  - pose proof E as Hint. apply createMovie_ok_inv in E.
    destruct E as [Hv [-> [_ [Ht _]]]].
    rewrite violates_movie in Hv. apply orb_false_iff in Hv.
    destruct Hv as [_ Hv]. rewrite Ht in Hv.
    repeat apply conj; [exact Hv | | reflexivity].
    unfold createMovie in Hint.
    destruct (int4 (InsertMovie.tmdbId movie)); [reflexivity|].
    discriminate Hint.
  - apply createMovie_err_inv in E. destruct E as [-> | ->];
      repeat apply conj; try reflexivity; cbn [movies_seq setMovies]; lia.
Qed.

Section MapHit.
Context {A : Type} (hit : A -> bool) (f : A -> A).

Lemma map_no_hit (l : list A) :
  existsb hit l = false -> map (fun x => if hit x then f x else x) l = l.
Proof.
  induction l as [|x l IH]; simpl; [reflexivity|].
  intros H. apply orb_false_iff in H. destruct H as [Hx Hl].
  now rewrite Hx, IH.
Qed.

Hypothesis hit_f : forall x, hit (f x) = hit x.

Lemma find_map_hit (l : list A) :
  find hit (map (fun x => if hit x then f x else x) l) =
  option_map f (find hit l).
Proof.
  induction l as [|x l IH]; simpl; [reflexivity|].
  destruct (hit x) eqn:E.
  - rewrite hit_f, E. reflexivity.
  - rewrite E. exact IH.
Qed.

Lemma In_map_unhit (l : list A) (x : A) :
  In x l -> hit x = false -> In x (map (fun y => if hit y then f y else y) l).
Proof.
  intros Hin Hx. apply in_map_iff. exists x. rewrite Hx. split; [reflexivity | exact Hin].
Qed.
End MapHit.


Lemma find_none_of_existsb {A} (p : A -> bool) (l : list A) :
  existsb p l = false -> find p l = None.
Proof.
  induction l as [|x l IH]; simpl; [reflexivity|].
  destruct (p x); simpl; [discriminate | exact IH].
Qed.



(** X14: a successful [updateMovie] rewrites the row of that id and no
    other: the returned row is what [getMovieById] finds afterwards; it
    keeps the id and the creation time of the old row, takes the title and
    the external id from the patch when present and keeps them otherwise,
    and has the current time as update time; the table keeps its ids in
    the same order and every row with another id is unchanged. *)
Theorem updateMovie_rewrites_one_row (id : Z) (movie : MoviePatch.t)
  (db db' : DB) (row : Movie.t) :
  updateMovie id movie db = (Ok (Some row), db') ->
  getMovieById id db' = (Ok (Some row), db') /\
  map Movie.id (movies db') = map Movie.id (movies db) /\
  (forall m, In m (movies db) -> Movie.id m <> id -> In m (movies db')) /\
  exists old,
    find (fun m => Movie.id m =? id) (movies db) = Some old /\
    Movie.id row = id /\
    Movie.title row = patched (MoviePatch.title movie) (Movie.title old) /\
    Movie.tmdbId row = patched (MoviePatch.tmdbId movie) (Movie.tmdbId old) /\
    Movie.createdAt row = Movie.createdAt old /\
    Movie.updatedAt row = Some (now db).
Proof.
  unfold updateMovie.
  destruct (patchDecimal 3 1 (MoviePatch.voteAverage movie)) as [va|e1];
    [|discriminate].
  destruct (patchDecimal 10 3 (MoviePatch.popularity movie)) as [pop|e2];
    [|discriminate].
  destruct (tmdbIdClash id movie (movies db)); [discriminate|].
  set (hit := fun m : Movie.t => Movie.id m =? id).
  set (f := applyPatch (now db) va pop movie).
  assert (Hf : forall m, hit (f m) = hit m) by reflexivity.
  rewrite (find_map_hit hit f Hf).
  destruct (find hit (movies db)) as [old|] eqn:Eold; [|discriminate].
  cbn [option_map]. intros H. inversion H; subst row db'. clear H.
  unfold getMovieById. cbn [movies setMovies].
  rewrite (find_map_hit hit f Hf), Eold. cbn [option_map].
  split; [reflexivity|]. split; [|split].
  - rewrite map_map. apply map_ext. intros m.
    destruct (Movie.id m =? id); reflexivity.
  - intros m Hin Hne. apply In_map_unhit; [exact Hin|].
    unfold hit. apply Z.eqb_neq, Hne.
  - exists old. split; [reflexivity|].
    apply find_some in Eold. destruct Eold as [_ Eid].
    unfold hit in Eid. apply Z.eqb_eq in Eid.
    repeat split; try reflexivity. exact Eid.
Qed.

Lemma updateMovie_rewrites_one_row_witness :
  exists row db',
    updateMovie 2 (MoviePatch.mk None (Some "Gisaengchung") None None None None
                     None None None None None None None) threeMovies =
      (Ok (Some row), db') /\
    getMovieById 2 db' = (Ok (Some row), db') /\
    Movie.title row = "Gisaengchung".
Proof.
  destruct (updateMovie 2 (MoviePatch.mk None (Some "Gisaengchung") None None
                             None None None None None None None None None)
              threeMovies) as [[[row|]|e] db'] eqn:E;
    try (vm_compute in E; discriminate E).
  exists row, db'. split; [reflexivity|].
  destruct (updateMovie_rewrites_one_row _ _ _ _ _ E)
    as [H1 [_ [_ [old [Hold [_ [Ht _]]]]]]].
  split; [exact H1|].
  rewrite Ht. reflexivity.
Defined.

(** ** The sync handlers: what a successful call returns *)

Lemma find_app_some {A} (p : A -> bool) (l l' : list A) (x : A) :
  find p l = Some x -> find p (l ++ l') = Some x.
Proof.
  induction l as [|y l IH]; simpl; [discriminate|].
  destruct (p y); [trivial | exact IH].
Qed.

Lemma createMovie_ok_find (movie : InsertMovie.t) (db db' : DB) (row : Movie.t) :
  createMovie movie db = (Ok row, db') ->
  movies db' = movies db ++ [row] /\
  find (fun r => Movie.tmdbId r =? InsertMovie.tmdbId movie) (movies db') = Some row.
Proof.
  intros H. apply createMovie_ok_inv in H.
  destruct H as [Hv [-> [_ [Ht _]]]].
  rewrite violates_movie in Hv. apply orb_false_iff in Hv. destruct Hv as [_ Hv].
  cbn [movies setMovies]. split; [reflexivity|].
  apply find_app_new.
  - rewrite <- Ht. exact Hv.
  - cbn beta. rewrite Ht. apply Z.eqb_refl.
Qed.

Section SyncResults.
Variable getMovieDetails : Z -> option TMDBMovie.t.

Lemma syncOne_ok (t : TMDBMovie.t) (db db1 : DB) (m : Movie.t) :
  syncOne getMovieDetails t db = (Ok m, db1) ->
  In m (movies db1) /\
  (detailsConsistent getMovieDetails ->
   find (fun r => Movie.tmdbId r =? TMDBMovie.id t) (movies db1) = Some m).
Proof.
  unfold syncOne, bind, getMovieByTmdbId.
  destruct (find _ (movies db)) as [m0|] eqn:E.
  - intros H. inversion H; subst. split; [|intros _; exact E].
    apply find_some in E. apply E.
  - unfold fetched.
    destruct (getMovieDetails (TMDBMovie.id t)) as [d|] eqn:Ed;
      [|intros H; discriminate H].
    unfold ret. intros H. apply createMovie_ok_find in H.
    destruct H as [Hm Hf]. split.
    + rewrite Hm. apply in_or_app. right. now left.
    + intros Hc. rewrite <- (Hc _ _ Ed). exact Hf.
Qed.

Lemma syncLoop_ok (results : list TMDBMovie.t) :
  forall (syncedMovies out : list Movie.t) (db db' : DB),
  syncLoop getMovieDetails results syncedMovies db = (Ok out, db') ->
  exists rows,
    out = syncedMovies ++ rows /\
    List.length rows = List.length results /\
    Forall (fun m => In m (movies db')) rows /\
    (detailsConsistent getMovieDetails -> map Some rows = localRows db' results).
Proof.
  induction results as [|t rest IH]; intros synced out db db' H.
  - inversion H; subst. exists []. rewrite app_nil_r.
    split; [reflexivity|]. split; [reflexivity|].
    split; [constructor | reflexivity].
  - rewrite syncLoop_cons in H.
    destruct (syncOne getMovieDetails t db) as [[m|e] db1] eqn:E1;
      [|discriminate].
    destruct (syncOne_ok t db db1 m E1) as [Hin Hfind].
    destruct (syncLoop_extends getMovieDetails rest (synced ++ [m]) db1)
      as [added [Hext _]].
    rewrite H in Hext. cbn [snd] in Hext.
    destruct (IH _ _ _ _ H) as [rows [-> [Hlen [Hall Hloc]]]].
    exists (m :: rows). split; [now rewrite <- app_assoc|].
    split; [simpl; now rewrite Hlen|]. split.
    + constructor; [|exact Hall].
      rewrite Hext. apply in_or_app. now left.
    + intros Hc. simpl. rewrite (Hloc Hc). f_equal.
      rewrite Hext. symmetry. apply find_app_some, Hfind, Hc.
Qed.

(** X15: a sync call that succeeds returns one local row per item of the
    listing, in listing order; every returned row is in the [movies]
    table afterwards, and the total is the one the external API
    reported. *)
Theorem sync_returns_row_per_item (listing : TMDBResponse.t) (db db' : DB)
  (syncedMovies : list Movie.t) (total : Z) :
  syncListing getMovieDetails (Some listing) db = (Ok (syncedMovies, total), db') ->
  List.length syncedMovies = List.length (TMDBResponse.results listing) /\
  Forall (fun m => In m (movies db')) syncedMovies /\
  total = TMDBResponse.total_results listing.
Proof.
  unfold syncListing, bind, fetched, ret.
  destruct (syncLoop getMovieDetails (TMDBResponse.results listing) [] db)
    as [[out|e] db1] eqn:E; [|discriminate].
  intros H. inversion H; subst.
  destruct (syncLoop_ok _ _ _ _ _ E) as [rows [-> [Hlen [Hall _]]]].
  repeat split; assumption.
Qed.

Lemma map_Some_inj {A} (l l' : list A) : map Some l = map Some l' -> l = l'.
Proof.
  revert l'. induction l as [|x l IH]; intros [|y l']; simpl; intros H;
    try discriminate; [reflexivity|].
  inversion H. f_equal. now apply IH.
Qed.

Lemma localRows_resident (db : DB) (results : list TMDBMovie.t) (rows : list Movie.t) :
  map Some rows = localRows db results -> forallb (resident db) results = true.
Proof.
  revert rows. induction results as [|t rest IH]; intros rows H; [reflexivity|].
  destruct rows as [|m rows]; [discriminate|].
  simpl in H. inversion H as [[Hm Hrest]].
  simpl. rewrite (IH rows Hrest), andb_true_r.
  unfold resident. symmetry in Hm.
  destruct (existsb _ (movies db)) eqn:E; [reflexivity|].
  apply find_none_of_existsb in E. congruence.
Qed.

(** X16: sync is idempotent when the external API answers a details
    request with the movie asked for: running the same listing again after
    a successful sync inserts nothing, leaves the database as the first
    run left it and returns the same rows. *)
Theorem sync_twice (listing : TMDBResponse.t) (db db' : DB)
  (syncedMovies : list Movie.t) (total : Z) :
  detailsConsistent getMovieDetails ->
  syncListing getMovieDetails (Some listing) db = (Ok (syncedMovies, total), db') ->
  syncListing getMovieDetails (Some listing) db' = (Ok (syncedMovies, total), db').
Proof.
  intros Hc. unfold syncListing, bind, fetched, ret.
  destruct (syncLoop getMovieDetails (TMDBResponse.results listing) [] db)
    as [[out|e] db1] eqn:E; [|discriminate].
  intros H. inversion H; subst. clear H.
  destruct (syncLoop_ok _ _ _ _ _ E) as [rows [-> [_ [_ Hloc]]]].
  specialize (Hloc Hc).
  destruct (syncLoop_resident getMovieDetails (TMDBResponse.results listing) db' []
              (localRows_resident _ _ _ Hloc)) as [rows2 [H2 Hloc2]].
  rewrite H2. rewrite <- Hloc in Hloc2.
  apply map_Some_inj in Hloc2. subst rows2. reflexivity.
Qed.
End SyncResults.

Lemma sampleApi_consistent : detailsConsistent sampleApi.
Proof.
  intros id d H. unfold sampleApi in H. inversion H. reflexivity.
Qed.

Lemma sync_returns_row_per_item_witness :
  exists rows db',
    syncListing sampleApi (Some sampleListing) emptyDB = (Ok (rows, 10000), db') /\
    List.length rows = 2%nat /\
    Forall (fun m => In m (movies db')) rows.
Proof.
  destruct (syncListing sampleApi (Some sampleListing) emptyDB)
    as [[[rows total]|e] db'] eqn:E; [|vm_compute in E; discriminate E].
  destruct (sync_returns_row_per_item sampleApi sampleListing emptyDB db' rows total E)
    as [Hlen [Hall Htotal]].
  exists rows, db'. rewrite Htotal. repeat split; assumption.
Defined.

Lemma sync_twice_witness :
  exists rows db',
    syncListing sampleApi (Some sampleListing) emptyDB = (Ok (rows, 10000), db') /\
    syncListing sampleApi (Some sampleListing) db' = (Ok (rows, 10000), db').
Proof.
  destruct (syncListing sampleApi (Some sampleListing) emptyDB)
    as [[[rows total]|e] db'] eqn:E; [|vm_compute in E; discriminate E].
  assert (Ht : total = 10000) by (vm_compute in E; inversion E; reflexivity).
  subst total. exists rows, db'. split; [reflexivity|].
  exact (sync_twice sampleApi sampleListing emptyDB db' rows 10000
           sampleApi_consistent E).
Defined.

(** ** Watchlist and favorites: adding, removing, listing *)

Lemma find_app_last {A} (p : A -> bool) (l : list A) (y : A) :
  p y = true -> exists x, find p (l ++ [y]) = Some x.
Proof.
  intros Hy. induction l as [|x l IH]; simpl.
  - rewrite Hy. eauto.
  - destruct (p x); eauto.
Qed.

Lemma addToWatchlist_marks_pair (userId : string) (movieId : Z) (db : DB) :
  watchlistFresh db = true ->
  isInWatchlist userId movieId (snd (addToWatchlist userId movieId db)) =
    (Ok true, snd (addToWatchlist userId movieId db)) /\
  (forall userId' movieId',
     (userId' <> userId \/ movieId' <> movieId) ->
     watchlistRows userId' movieId' (snd (addToWatchlist userId movieId db)) =
     watchlistRows userId' movieId' db) /\
  favorites (snd (addToWatchlist userId movieId db)) = favorites db /\
  movies (snd (addToWatchlist userId movieId db)) = movies db /\
  ratings (snd (addToWatchlist userId movieId db)) = ratings db.
Proof.
  intros Hfresh. rewrite (addToWatchlist_never_conflicts _ _ _ Hfresh).
  cbn [snd]. split; [|split; [|repeat split]].
  - unfold isInWatchlist, setWatchlist. cbn [watchlist].
    destruct (find_app_last (watchlistKey userId movieId) (watchlist db)
                (Watchlist.mk (watchlist_seq db) userId movieId (Some (now db))))
      as [x Hx].
    + unfold watchlistKey. cbn. now rewrite String.eqb_refl, Z.eqb_refl.
    + rewrite Hx. reflexivity.
  - intros u' m' Hother. unfold watchlistRows, setWatchlist. cbn [watchlist].
    rewrite filter_app. cbn [filter].
    unfold watchlistKey. cbn.
    assert (Hf : String.eqb userId u' && (movieId =? m') = false).
    { destruct Hother as [Hne|Hne].
      - apply not_eq_sym, String.eqb_neq in Hne. now rewrite Hne.
      - apply not_eq_sym, Z.eqb_neq in Hne. rewrite Hne. apply andb_false_r. }
    rewrite Hf. apply app_nil_r.
Qed.

Lemma addToFavorites_marks_pair (userId : string) (movieId : Z) (db : DB) :
  favoritesFresh db = true ->
  isInFavorites userId movieId (snd (addToFavorites userId movieId db)) =
    (Ok true, snd (addToFavorites userId movieId db)) /\
  (forall userId' movieId',
     (userId' <> userId \/ movieId' <> movieId) ->
     favoriteRows userId' movieId' (snd (addToFavorites userId movieId db)) =
     favoriteRows userId' movieId' db) /\
  watchlist (snd (addToFavorites userId movieId db)) = watchlist db /\
  movies (snd (addToFavorites userId movieId db)) = movies db /\
  ratings (snd (addToFavorites userId movieId db)) = ratings db.
Proof.
  intros Hfresh. rewrite (addToFavorites_never_conflicts _ _ _ Hfresh).
  cbn [snd]. split; [|split; [|repeat split]].
  - unfold isInFavorites, setFavorites. cbn [favorites].
    destruct (find_app_last (favoriteKey userId movieId) (favorites db)
                (Favorite.mk (favorites_seq db) userId movieId (Some (now db))))
      as [x Hx].
    + unfold favoriteKey. cbn. now rewrite String.eqb_refl, Z.eqb_refl.
    + rewrite Hx. reflexivity.
  - intros u' m' Hother. unfold favoriteRows, setFavorites. cbn [favorites].
    rewrite filter_app. cbn [filter].
    unfold favoriteKey. cbn.
    assert (Hf : String.eqb userId u' && (movieId =? m') = false).
    { destruct Hother as [Hne|Hne].
      - apply not_eq_sym, String.eqb_neq in Hne. now rewrite Hne.
      - apply not_eq_sym, Z.eqb_neq in Hne. rewrite Hne. apply andb_false_r. }
    rewrite Hf. apply app_nil_r.
Qed.

(** X17: on tables whose ids come from the sequence, [addToWatchlist]
    and [addToFavorites] store a row for the pair, so [isInWatchlist] and
    [isInFavorites] answer true afterwards; the rows of every other pair
    and the other tables are as before: the watchlist and the favorites
    do not affect each other. *)
Theorem add_marks_the_pair (userId : string) (movieId : Z) (db : DB) :
  watchlistFresh db = true ->
  favoritesFresh db = true ->
  (isInWatchlist userId movieId (snd (addToWatchlist userId movieId db)) =
     (Ok true, snd (addToWatchlist userId movieId db)) /\
   (forall userId' movieId',
      (userId' <> userId \/ movieId' <> movieId) ->
      watchlistRows userId' movieId' (snd (addToWatchlist userId movieId db)) =
      watchlistRows userId' movieId' db) /\
   favorites (snd (addToWatchlist userId movieId db)) = favorites db /\
   movies (snd (addToWatchlist userId movieId db)) = movies db /\
   ratings (snd (addToWatchlist userId movieId db)) = ratings db) /\
  (isInFavorites userId movieId (snd (addToFavorites userId movieId db)) =
     (Ok true, snd (addToFavorites userId movieId db)) /\
   (forall userId' movieId',
      (userId' <> userId \/ movieId' <> movieId) ->
      favoriteRows userId' movieId' (snd (addToFavorites userId movieId db)) =
      favoriteRows userId' movieId' db) /\
   watchlist (snd (addToFavorites userId movieId db)) = watchlist db /\
   movies (snd (addToFavorites userId movieId db)) = movies db /\
   ratings (snd (addToFavorites userId movieId db)) = ratings db).
Proof.
  intros Hw Hf. split.
  - apply addToWatchlist_marks_pair, Hw.
  - apply addToFavorites_marks_pair, Hf.
Qed.

Lemma add_marks_the_pair_witness :
  isInWatchlist "user-1" 7 (snd (addToWatchlist "user-1" 7 oneWatchlistRow)) =
    (Ok true, snd (addToWatchlist "user-1" 7 oneWatchlistRow)) /\
  isInFavorites "user-1" 7 (snd (addToFavorites "user-1" 7 oneWatchlistRow)) =
    (Ok true, snd (addToFavorites "user-1" 7 oneWatchlistRow)).
Proof.
  destruct (add_marks_the_pair "user-1" 7 oneWatchlistRow eq_refl eq_refl)
    as [[Hw _] [Hf _]].
  split; assumption.
Defined.

Lemma filter_filter_disjoint {A} (p q : A -> bool) (l : list A) :
  (forall x, p x = true -> q x = false) ->
  filter p (filter (fun x => negb (q x)) l) = filter p l.
Proof.
  intros H. induction l as [|x l IH]; simpl; [reflexivity|].
  destruct (q x) eqn:Eq; simpl.
  - destruct (p x) eqn:Ep; [|exact IH].
    rewrite (H x Ep) in Eq. discriminate.
  - now rewrite IH.
Qed.

Lemma filter_filter_negb_same {A} (p : A -> bool) (l : list A) :
  filter p (filter (fun x => negb (p x)) l) = [].
Proof.
  induction l as [|x l IH]; simpl; [reflexivity|].
  destruct (p x) eqn:E; simpl; [exact IH|].
  now rewrite E.
Qed.

(** X18: [removeFromWatchlist] deletes every row of the pair, however
    many there are, and nothing else: the rows of each other pair, the
    sequence, the favorites, the movies and the ratings are as before;
    [removeFromFavorites] does the same on the favorites. *)
Theorem remove_deletes_only_the_pair (userId : string) (movieId : Z) (db : DB) :
  (watchlistRows userId movieId (snd (removeFromWatchlist userId movieId db)) = [] /\
   (forall userId' movieId',
      (userId' <> userId \/ movieId' <> movieId) ->
      watchlistRows userId' movieId' (snd (removeFromWatchlist userId movieId db)) =
      watchlistRows userId' movieId' db) /\
   watchlist_seq (snd (removeFromWatchlist userId movieId db)) = watchlist_seq db /\
   favorites (snd (removeFromWatchlist userId movieId db)) = favorites db /\
   movies (snd (removeFromWatchlist userId movieId db)) = movies db /\
   ratings (snd (removeFromWatchlist userId movieId db)) = ratings db) /\
  (favoriteRows userId movieId (snd (removeFromFavorites userId movieId db)) = [] /\
   (forall userId' movieId',
      (userId' <> userId \/ movieId' <> movieId) ->
      favoriteRows userId' movieId' (snd (removeFromFavorites userId movieId db)) =
      favoriteRows userId' movieId' db) /\
   favorites_seq (snd (removeFromFavorites userId movieId db)) = favorites_seq db /\
   watchlist (snd (removeFromFavorites userId movieId db)) = watchlist db /\
   movies (snd (removeFromFavorites userId movieId db)) = movies db /\
   ratings (snd (removeFromFavorites userId movieId db)) = ratings db).
Proof.
  split.
  - unfold removeFromWatchlist, watchlistRows. cbn [snd watchlist setWatchlist].
    split; [apply filter_filter_negb_same|].
    split; [|repeat split].
    intros u' m' Hne. apply filter_filter_disjoint.
    intros r Hr. unfold watchlistKey in *.
    apply andb_true_iff in Hr. destruct Hr as [Hu Hm].
    apply String.eqb_eq in Hu. apply Z.eqb_eq in Hm. rewrite Hu, Hm.
    destruct Hne as [Hne|Hne].
    + apply String.eqb_neq in Hne. now rewrite Hne.
    + apply Z.eqb_neq in Hne. rewrite Hne. apply andb_false_r.
  - unfold removeFromFavorites, favoriteRows. cbn [snd favorites setFavorites].
    split; [apply filter_filter_negb_same|].
    split; [|repeat split].
    intros u' m' Hne. apply filter_filter_disjoint.
    intros r Hr. unfold favoriteKey in *.
    apply andb_true_iff in Hr. destruct Hr as [Hu Hm].
    apply String.eqb_eq in Hu. apply Z.eqb_eq in Hm. rewrite Hu, Hm.
    destruct Hne as [Hne|Hne].
    + apply String.eqb_neq in Hne. now rewrite Hne.
    + apply Z.eqb_neq in Hne. rewrite Hne. apply andb_false_r.
Qed.

Lemma remove_deletes_only_the_pair_witness :
  watchlistRows "user-2" 7
    (snd (removeFromWatchlist "user-1" 7
       (setWatchlist [Watchlist.mk 1 "user-1" 7 None; Watchlist.mk 2 "user-2" 7 None;
                      Watchlist.mk 3 "user-1" 7 None] 4 emptyDB))) =
  [Watchlist.mk 2 "user-2" 7 None].
Proof.
  destruct (remove_deletes_only_the_pair "user-1" 7
    (setWatchlist [Watchlist.mk 1 "user-1" 7 None; Watchlist.mk 2 "user-2" 7 None;
                   Watchlist.mk 3 "user-1" 7 None] 4 emptyDB)) as [[_ [H _]] _].
  rewrite (H "user-2" 7); [reflexivity|].
  left. discriminate.
Defined.

Section ListViaProperties.
Context {R : Type}.
Variable userOf : R -> string.
Variable movieOf : R -> Z.
Variable createdOf : R -> option Z.

Lemma In_joinMovies (userId : string) (rows : list R) (ms : list Movie.t)
  (r : R) (m : Movie.t) :
  In (r, m) (joinMovies userOf movieOf userId rows ms) <->
  In r rows /\ userOf r = userId /\ In m ms /\ movieOf r = Movie.id m.
Proof.
  unfold joinMovies, entriesOf. rewrite in_flat_map. split.
  - intros [r' [Hr' Hin]]. apply filter_In in Hr'. destruct Hr' as [Hr' Hu].
    apply in_map_iff in Hin. destruct Hin as [m' [Heq Hm']].
    inversion Heq; subst. apply filter_In in Hm'. destruct Hm' as [Hm' Hid].
    apply String.eqb_eq in Hu. apply Z.eqb_eq in Hid. auto.
  - intros [Hr [Hu [Hm Hid]]]. exists r. split.
    + apply filter_In. split; [exact Hr|]. now apply String.eqb_eq.
    + apply in_map. apply filter_In. split; [exact Hm|]. now apply Z.eqb_eq.
Qed.

Lemma listVia_eq (userId : string) (page limit : option Z)
  (rows : list R) (ms : list Movie.t) :
  listVia userOf movieOf createdOf userId page limit rows ms =
  if (param page 1 - 1) * param limit 20 <? 0 then Err NegativeOffset
  else Ok (map snd (limitRows (param limit 20)
                      (skipn (Z.to_nat ((param page 1 - 1) * param limit 20))
                         (orderBy (newestFirst createdOf)
                            (joinMovies userOf movieOf userId rows ms)))),
           List.length (entriesOf userOf userId rows)).
Proof. reflexivity. Qed.


Lemma filter_none_notin (ms : list Movie.t) (x : Z) :
  existsb (fun m => x =? Movie.id m) ms = false ->
  filter (fun m => x =? Movie.id m) ms = [].
Proof.
  induction ms as [|a ms IH]; simpl; [reflexivity|].
  intros H. apply orb_false_iff in H. destruct H as [Ha Hms].
  rewrite Ha. apply IH, Hms.
Qed.

Lemma matches_at_most_one (ms : list Movie.t) (x : Z) :
  NoDup (map Movie.id ms) ->
  List.length (filter (fun m => x =? Movie.id m) ms) =
  if existsb (fun m => x =? Movie.id m) ms then 1%nat else 0%nat.
Proof.
  induction ms as [|a ms IH]; intros Hnd; [reflexivity|].
  inversion Hnd as [|? ? Hnotin Hnd']; subst. cbn [filter existsb].
  destruct (Z.eqb_spec x (Movie.id a)) as [E|E].
  - cbn [orb List.length]. f_equal.
    rewrite filter_none_notin; [reflexivity|].
    destruct (existsb (fun m => x =? Movie.id m) ms) eqn:Ex; [|reflexivity].
    exfalso. apply Hnotin. apply existsb_exists in Ex.
    destruct Ex as [m [Hm Hx]]. apply Z.eqb_eq in Hx.
    rewrite <- E, Hx. apply in_map, Hm.
  - cbn [orb]. apply IH, Hnd'.
Qed.

Lemma join_plus_dangling (userId : string) (rows : list R) (ms : list Movie.t) :
  NoDup (map Movie.id ms) ->
  (List.length (joinMovies userOf movieOf userId rows ms) +
   List.length (filter (fun r => negb (existsb (fun m => (movieOf r =? Movie.id m)%Z) ms))
                  (entriesOf userOf userId rows)) =
   List.length (entriesOf userOf userId rows))%nat.
Proof.
  intros Hnd. unfold joinMovies.
  induction (entriesOf userOf userId rows) as [|r l IH]; [reflexivity|].
  cbn [flat_map filter]. rewrite length_app, length_map.
  rewrite (matches_at_most_one ms (movieOf r) Hnd).
  destruct (existsb (fun m => movieOf r =? Movie.id m) ms); cbn [negb List.length]; lia.
Qed.
End ListViaProperties.

Lemma getUserWatchlist_fst (userId : string) (page limit : option Z) (db : DB) :
  fst (getUserWatchlist userId page limit db) =
  listVia Watchlist.userId Watchlist.movieId Watchlist.createdAt
    userId page limit (watchlist db) (movies db).
Proof.
  unfold getUserWatchlist.
  destruct (listVia _ _ _ userId page limit (watchlist db) (movies db)); reflexivity.
Qed.




(** X20: the total of [getUserWatchlist] counts entries, not movies: with
    unique movie ids, a first page large enough for all entries lists
    exactly the entries whose movie exists, so the total exceeds the
    number of listed movies by the number of entries whose movie id no
    row of [movies] has. *)
Theorem getUserWatchlist_total_counts_dangling (userId : string) (limit : Z)
  (db : DB) :
  NoDup (map Movie.id (movies db)) ->
  Z.of_nat (List.length (entriesOf Watchlist.userId userId (watchlist db))) <= limit ->
  (List.length (pageOf (fst (getUserWatchlist userId (Some 1%Z) (Some limit) db))) +
   List.length (danglingEntries userId db) =
   totalOf (fst (getUserWatchlist userId (Some 1%Z) (Some limit) db)))%nat.
Proof.
  intros Hnd Hl.
  pose proof (join_plus_dangling Watchlist.userId Watchlist.movieId userId
                (watchlist db) (movies db) Hnd) as Hj.
  rewrite getUserWatchlist_fst, listVia_eq. cbn [param].
  change ((1 - 1) * limit <? 0) with false. cbv iota.
  cbn [pageOf totalOf]. change (Z.to_nat ((1 - 1) * limit)) with 0%nat.
  cbn [skipn]. rewrite length_map, limitRows_all.
  - rewrite orderBy_length. exact Hj.
  - right. rewrite orderBy_length. lia.
Qed.

Lemma getUserWatchlist_total_counts_dangling_witness :
  (List.length (pageOf (fst (getUserWatchlist "user-1" (Some 1%Z) (Some 20%Z)
                               watchlistWithDangling))) +
   List.length (danglingEntries "user-1" watchlistWithDangling) =
   totalOf (fst (getUserWatchlist "user-1" (Some 1%Z) (Some 20%Z)
                   watchlistWithDangling)))%nat.
Proof.
  apply (getUserWatchlist_total_counts_dangling "user-1" 20).
  - repeat constructor; simpl; intuition discriminate.
  - vm_compute. discriminate.
Defined.

Lemma orderBy_In_inv {A} (le : A -> A -> bool) (x : A) (l : list A) :
  In x l -> In x (orderBy le l).
Proof.
  apply Permutation_in, Permutation_sym, orderBy_perm.
Qed.

(** X21: adding and listing compose: on a watchlist whose ids come from
    the sequence and a [movies] table with unique ids, after
    [addToWatchlist] for an existing movie the first page of
    [getUserWatchlist], with a limit above the number of the user's
    entries, contains that movie. *)
Theorem addToWatchlist_then_listed (userId : string) (movie : Movie.t)
  (limit : Z) (db : DB) :
  watchlistFresh db = true ->
  NoDup (map Movie.id (movies db)) ->
  In movie (movies db) ->
  Z.of_nat (List.length (entriesOf Watchlist.userId userId (watchlist db))) < limit ->
  In movie
     (pageOf (fst (getUserWatchlist userId (Some 1) (Some limit)
                     (snd (addToWatchlist userId (Movie.id movie) db))))).
Proof.
  intros Hfresh Hnd Hin Hl.
  rewrite (addToWatchlist_never_conflicts _ _ _ Hfresh). cbn [snd].
  set (row := Watchlist.mk (watchlist_seq db) userId (Movie.id movie) (Some (now db))).
  rewrite getUserWatchlist_fst, listVia_eq. cbn [param].
  cbn [watchlist movies setWatchlist].
  change ((1 - 1) * limit <? 0) with false. cbv iota.
  change (Z.to_nat ((1 - 1) * limit)) with 0%nat. cbn [skipn pageOf].
  pose proof (join_plus_dangling Watchlist.userId Watchlist.movieId userId
                (watchlist db ++ [row]) (movies db) Hnd) as Hj.
  assert (He : List.length (entriesOf Watchlist.userId userId (watchlist db ++ [row])) =
               S (List.length (entriesOf Watchlist.userId userId (watchlist db)))).
  { unfold entriesOf. rewrite filter_app, length_app. cbn.
    rewrite String.eqb_refl. cbn. lia. }
  rewrite limitRows_all by (right; rewrite orderBy_length; lia).
  apply in_map_iff. exists (row, movie). split; [reflexivity|].
  apply orderBy_In_inv. apply In_joinMovies.
  repeat split; try reflexivity; [|exact Hin].
  apply in_or_app. right. now left.
Qed.

Lemma addToWatchlist_then_listed_witness :
  In parasite
     (pageOf (fst (getUserWatchlist "user-1" (Some 1) (Some 20)
                     (snd (addToWatchlist "user-1" 2 threeMovies))))).
Proof.
  apply (addToWatchlist_then_listed "user-1" parasite 20 threeMovies).
  - reflexivity.
  - repeat constructor; simpl; intuition discriminate.
  - simpl. auto.
  - vm_compute. reflexivity.
Defined.

(** ** Invariants of the tables under sequences of operations *)

Lemma NoDup_keys_filter {Row Key} (rows : list Row) (key : Row -> Key)
  (keep : Row -> bool) (Hkeys : NoDup (map key rows)) :
  NoDup (map key (filter keep rows)).
Proof.
  induction rows as [|r rows IH]; simpl; [constructor|].
  inversion Hkeys as [|? ? Hfresh Hrest]; subst.
  destruct (keep r); simpl; [|exact (IH Hrest)].
  constructor; [|exact (IH Hrest)].
  intros Hin. apply Hfresh. apply in_map_iff in Hin.
  destruct Hin as [r' [Hk Hin]]. apply filter_In in Hin.
  apply in_map_iff. exists r'. split; [exact Hk | apply Hin].
Qed.

Lemma forallb_filter {A} (p q : A -> bool) (l : list A) :
  forallb p l = true -> forallb p (filter q l) = true.
Proof.
  induction l as [|x l IH]; simpl; [reflexivity|].
  intros H. apply andb_true_iff in H. destruct H as [Hx Hl].
  destruct (q x); simpl; [rewrite Hx|]; apply IH, Hl.
Qed.

Lemma NoDup_map_snoc {A} (f : A -> Z) (l : list A) (x : A) :
  NoDup (map f l) -> existsb (fun y => f y =? f x) l = false ->
  NoDup (map f (l ++ [x])).
Proof.
  intros Hnd Hx. rewrite map_app. cbn [map].
  apply NoDup_app_remove_l with (l := []). cbn [app].
  apply Permutation_NoDup with (f x :: map f l).
  - apply Permutation_cons_append.
  - constructor; [|exact Hnd].
    intros Hin. apply in_map_iff in Hin. destruct Hin as [y [Hy Hin]].
    assert (existsb (fun y => f y =? f x) l = true).
    { apply existsb_exists. exists y. split; [exact Hin | now apply Z.eqb_eq]. }
    congruence.
Qed.

Lemma createMovie_moviesOk (movie : InsertMovie.t) (db : DB) :
  moviesOk (movies db) (movies_seq db) ->
  moviesOk (movies (snd (createMovie movie db)))
           (movies_seq (snd (createMovie movie db))).
Proof.
  intros Hok.
  destruct (createMovie movie db) as [[row|e] db'] eqn:E.
  - apply createMovie_ok_inv in E. destruct E as [Hv [-> [Hid _]]].
    rewrite violates_movie in Hv. apply orb_false_iff in Hv.
    destruct Hv as [Hv1 Hv2]. destruct Hok as [Hf [Hn1 Hn2]].
    cbn [snd movies movies_seq setMovies]. split; [|split].
    + rewrite forallb_app. apply andb_true_iff. split.
      * revert Hf. apply forallb_impl. intros m Hm. lia.
      * cbn. rewrite Hid, andb_true_r. lia.
    + apply NoDup_map_snoc; assumption.
    + apply NoDup_map_snoc; assumption.
  - apply createMovie_err_inv in E. destruct E as [-> | ->]; [exact Hok|].
    destruct Hok as [Hf [Hn1 Hn2]].
    cbn [snd movies movies_seq setMovies]. split; [|split; assumption].
    revert Hf. apply forallb_impl. intros m Hm. lia.
Qed.

Section UpdateKey.
Context (hit : Movie.t -> bool) (f : Movie.t -> Movie.t) (t : Z).
Hypothesis f_key : forall m, hit m = true -> Movie.tmdbId (f m) = t.

Lemma NoDup_tmdbId_update (rows : list Movie.t) :
  NoDup (map Movie.tmdbId rows) ->
  existsb (fun m => negb (hit m) && (Movie.tmdbId m =? t)) rows = false ->
  (List.length (filter hit rows) <= 1)%nat ->
  NoDup (map Movie.tmdbId (map (fun m => if hit m then f m else m) rows)).
Proof.
  induction rows as [|a rows IH]; intros Hnd Hbad Hcount; [constructor|].
  inversion Hnd as [|? ? Hnotin Hnd']; subst.
  cbn [existsb] in Hbad. apply orb_false_iff in Hbad. destruct Hbad as [Ha Hbad].
  cbn [filter] in Hcount. cbn [map].
  destruct (hit a) eqn:Ehit.
  - cbn [List.length] in Hcount.
    assert (Hnone : existsb hit rows = false).
    { destruct (existsb hit rows) eqn:Ex; [|reflexivity].
      apply existsb_exists in Ex. destruct Ex as [m [Hm Hh]].
      assert (In m (filter hit rows)) by (apply filter_In; auto).
      destruct (filter hit rows); [contradiction | simpl in Hcount; lia]. }
    rewrite (map_no_hit hit f rows Hnone). constructor; [|exact Hnd'].
    rewrite (f_key a Ehit). intros Hin. apply in_map_iff in Hin.
    destruct Hin as [m [Hm Hin]].
    assert (hit m = false).
    { destruct (hit m) eqn:E; [|reflexivity].
      assert (existsb hit rows = true) by (apply existsb_exists; eauto).
      congruence. }
    assert (existsb (fun m => negb (hit m) && (Movie.tmdbId m =? t)) rows = true).
    { apply existsb_exists. exists m. split; [exact Hin|].
      rewrite H, Hm, Z.eqb_refl. reflexivity. }
    congruence.
  - constructor; [|apply IH; assumption].
    intros Hin. apply in_map_iff in Hin. destruct Hin as [m' [Hm' Hin]].
    apply in_map_iff in Hin. destruct Hin as [m [Hm Hin]]. subst m'.
    destruct (hit m) eqn:E.
    + rewrite (f_key m E) in Hm'. cbn in Ha.
      rewrite <- Hm', Z.eqb_refl in Ha. discriminate.
    + apply Hnotin. rewrite <- Hm'. apply in_map, Hin.
Qed.
End UpdateKey.

Lemma forallb_map_compose {A B} (g : A -> B) (p : B -> bool) (l : list A) :
  forallb p (map g l) = forallb (fun x => p (g x)) l.
Proof.
  induction l as [|x l IH]; simpl; [reflexivity | now rewrite IH].
Qed.

Lemma updateMovie_moviesOk (id : Z) (movie : MoviePatch.t) (db : DB) :
  moviesOk (movies db) (movies_seq db) ->
  moviesOk (movies (snd (updateMovie id movie db)))
           (movies_seq (snd (updateMovie id movie db))).
Proof.
  intros Hok. unfold updateMovie.
  destruct (patchDecimal 3 1 (MoviePatch.voteAverage movie)) as [va|e1];
    [|exact Hok].
  destruct (patchDecimal 10 3 (MoviePatch.popularity movie)) as [pop|e2];
    [|exact Hok].
  destruct (tmdbIdClash id movie (movies db)) eqn:Eclash; [exact Hok|].
  cbn [snd movies movies_seq setMovies].
  destruct Hok as [Hf [Hn1 Hn2]].
  set (hit := fun m : Movie.t => Movie.id m =? id).
  set (f := applyPatch (now db) va pop movie).
  assert (Hids : map Movie.id (map (fun m => if hit m then f m else m) (movies db)) =
                 map Movie.id (movies db)).
  { rewrite map_map. apply map_ext. intros m. unfold hit.
    destruct (Movie.id m =? id); reflexivity. }
  change (moviesOk (map (fun m => if hit m then f m else m) (movies db))
                   (movies_seq db)).
  split; [|split].
  - rewrite forallb_map_compose. revert Hf. apply forallb_impl.
    intros m Hm. cbn beta. unfold hit. destruct (Movie.id m =? id); exact Hm.
  - rewrite Hids. exact Hn1.
  - unfold tmdbIdClash in Eclash.
    destruct (MoviePatch.tmdbId movie) as [t|] eqn:Et.
    + fold hit in Eclash.
      destruct (existsb hit (movies db)) eqn:Ehit.
      * cbn [andb] in Eclash. apply orb_false_iff in Eclash.
        destruct Eclash as [Hbad Hcount].
        apply (NoDup_tmdbId_update hit f t); [| exact Hn2 | exact Hbad | lia].
        intros m _. unfold f, applyPatch. cbn [Movie.tmdbId]. rewrite Et. reflexivity.
      * rewrite (map_no_hit hit f _ Ehit). exact Hn2.
    + replace (map Movie.tmdbId (map (fun m => if hit m then f m else m) (movies db)))
        with (map Movie.tmdbId (movies db)); [exact Hn2|].
      rewrite map_map. apply map_ext. intros m.
      destruct (hit m); [|reflexivity].
      unfold f, applyPatch. cbn [Movie.tmdbId]. rewrite Et. reflexivity.
Qed.

(** The tables other than [movies] are the same in both databases. *)
Lemma createMovie_frame (movie : InsertMovie.t) (db : DB) :
  watchlist (snd (createMovie movie db)) = watchlist db /\
  watchlist_seq (snd (createMovie movie db)) = watchlist_seq db /\
  favorites (snd (createMovie movie db)) = favorites db /\
  favorites_seq (snd (createMovie movie db)) = favorites_seq db /\
  ratings (snd (createMovie movie db)) = ratings db /\
  ratings_seq (snd (createMovie movie db)) = ratings_seq db.
Proof.
  unfold createMovie.
  destruct (negb _); [repeat split|].
  destruct (optDecimal 3 1 _); [|repeat split].
  destruct (optDecimal 10 3 _); [|repeat split].
  destruct (violates _ _ _ _); repeat split.
Qed.

Section SyncPreserves.
Variable getMovieDetails : Z -> option TMDBMovie.t.
Variable P : DB -> Prop.
Hypothesis P_createMovie : forall movie db, P db -> P (snd (createMovie movie db)).

Lemma syncOne_preserves (t : TMDBMovie.t) (db : DB) :
  P db -> P (snd (syncOne getMovieDetails t db)).
Proof.
  intros HP. unfold syncOne, bind, getMovieByTmdbId.
  destruct (find _ (movies db)); [exact HP|].
  destruct (getMovieDetails (TMDBMovie.id t)); cbn; [|exact HP].
  apply P_createMovie, HP.
Qed.

Lemma syncLoop_preserves (results : list TMDBMovie.t) :
  forall syncedMovies db,
  P db -> P (snd (syncLoop getMovieDetails results syncedMovies db)).
Proof.
  induction results as [|t rest IH]; intros synced db HP; [exact HP|].
  rewrite syncLoop_cons.
  pose proof (syncOne_preserves t db HP) as H1.
  destruct (syncOne getMovieDetails t db) as [[m|e] db1]; cbn [snd] in *.
  - apply IH, H1.
  - exact H1.
Qed.

Lemma syncListing_preserves (listing : option TMDBResponse.t) (db : DB) :
  P db -> P (snd (syncListing getMovieDetails listing db)).
Proof.
  intros HP. unfold syncListing, bind, fetched.
  destruct listing as [l|]; [|exact HP]. unfold ret at 1.
  pose proof (syncLoop_preserves (TMDBResponse.results l) [] db HP) as H.
  destruct (syncLoop getMovieDetails (TMDBResponse.results l) [] db)
    as [[rows|e] db1]; exact H.
Qed.
End SyncPreserves.

Lemma fresh_step {A} (key : A -> Z) (seq : Z) (l : list A) :
  forallb (fun r => key r <? seq) l = true ->
  forallb (fun r => key r <? seq + 1) l = true.
Proof. apply forallb_impl. intros r Hr. lia. Qed.

Lemma addToWatchlist_watchlistOk (userId : string) (movieId : Z) (db : DB) :
  watchlistOk (watchlist db) (watchlist_seq db) ->
  watchlistOk (watchlist (snd (addToWatchlist userId movieId db)))
              (watchlist_seq (snd (addToWatchlist userId movieId db))).
Proof.
  intros [Hf Hn]. rewrite (addToWatchlist_never_conflicts _ _ _ Hf).
  cbn [snd watchlist watchlist_seq setWatchlist]. split.
  - rewrite forallb_app. apply andb_true_iff. split; [apply fresh_step, Hf|].
    cbn. rewrite andb_true_r. lia.
  - apply NoDup_map_snoc; [exact Hn|]. cbn [Watchlist.id].
    revert Hf. apply existsb_false_of_forallb. intros r Hr. lia.
Qed.

Lemma addToFavorites_favoritesOk (userId : string) (movieId : Z) (db : DB) :
  favoritesOk (favorites db) (favorites_seq db) ->
  favoritesOk (favorites (snd (addToFavorites userId movieId db)))
              (favorites_seq (snd (addToFavorites userId movieId db))).
Proof.
  intros [Hf Hn]. rewrite (addToFavorites_never_conflicts _ _ _ Hf).
  cbn [snd favorites favorites_seq setFavorites]. split.
  - rewrite forallb_app. apply andb_true_iff. split; [apply fresh_step, Hf|].
    cbn. rewrite andb_true_r. lia.
  - apply NoDup_map_snoc; [exact Hn|]. cbn [Favorite.id].
    revert Hf. apply existsb_false_of_forallb. intros r Hr. lia.
Qed.

Lemma updateMovie_frame (id : Z) (movie : MoviePatch.t) (db : DB) :
  watchlist (snd (updateMovie id movie db)) = watchlist db /\
  watchlist_seq (snd (updateMovie id movie db)) = watchlist_seq db /\
  favorites (snd (updateMovie id movie db)) = favorites db /\
  favorites_seq (snd (updateMovie id movie db)) = favorites_seq db /\
  ratings (snd (updateMovie id movie db)) = ratings db /\
  ratings_seq (snd (updateMovie id movie db)) = ratings_seq db.
Proof.
  unfold updateMovie.
  destruct (patchDecimal 3 1 _); [|repeat split].
  destruct (patchDecimal 10 3 _); [|repeat split].
  destruct (tmdbIdClash _ _ _); repeat split.
Qed.

Lemma exec_consistent (op : Op) (db : DB) :
  consistent db -> consistent (exec op db).
Proof.
  intros [Hm [Hw Hf]]. destruct op as [movie|id movie|u m|u m|u m|u m|u m r|gd listing];
    cbn [exec].
  - destruct (createMovie_frame movie db) as [E1 [E2 [E3 [E4 _]]]].
    unfold consistent. rewrite E1, E2, E3, E4.
    split; [apply createMovie_moviesOk, Hm | split; assumption].
  - destruct (updateMovie_frame id movie db) as [E1 [E2 [E3 [E4 _]]]].
    unfold consistent. rewrite E1, E2, E3, E4.
    split; [apply updateMovie_moviesOk, Hm | split; assumption].
  - split; [|split].
    + unfold addToWatchlist. destruct (violates _ _ _ _); exact Hm.
    + apply addToWatchlist_watchlistOk, Hw.
    + unfold addToWatchlist. destruct (violates _ _ _ _); exact Hf.
  - split; [exact Hm | split; [|exact Hf]].
    destruct Hw as [Hw1 Hw2]. cbn [removeFromWatchlist snd watchlist watchlist_seq setWatchlist].
    split; [apply forallb_filter, Hw1 | apply NoDup_keys_filter, Hw2].
  - split; [|split].
    + unfold addToFavorites. destruct (violates _ _ _ _); exact Hm.
    + unfold addToFavorites. destruct (violates _ _ _ _); exact Hw.
    + apply addToFavorites_favoritesOk, Hf.
  - split; [exact Hm | split; [exact Hw|]].
    destruct Hf as [Hf1 Hf2]. cbn [removeFromFavorites snd favorites favorites_seq setFavorites].
    split; [apply forallb_filter, Hf1 | apply NoDup_keys_filter, Hf2].
  - rewrite rateMovie_rejected. split; [exact Hm | split; assumption].
  - apply (syncListing_preserves gd consistent); [|split; [exact Hm | split; assumption]].
    clear. intros movie db [Hm [Hw Hf]].
    destruct (createMovie_frame movie db) as [E1 [E2 [E3 [E4 _]]]].
    unfold consistent. rewrite E1, E2, E3, E4.
    split; [apply createMovie_moviesOk, Hm | split; assumption].
Qed.

(** X22: the uniqueness invariants hold in every database reached from
    the empty one (or from any consistent one) by [createMovie],
    [updateMovie], the watchlist and favorites operations, [rateMovie] and
    the sync handlers, in any order and whether the calls succeed or
    fail: no two movies share an id or an external id, no two watchlist or
    favorites rows share an id, and every id is below the next value of
    its sequence. *)
Theorem consistent_invariant (ops : list Op) (db : DB) :
  consistent emptyDB /\
  (consistent db -> consistent (run ops db)).
Proof.
  split.
  - repeat split; constructor.
  - revert db. induction ops as [|op ops IH]; intros db H; [exact H|].
    change (run (op :: ops) db) with (run ops (exec op db)).
    apply IH, exec_consistent, H.
Qed.

Lemma consistent_invariant_witness :
  consistent
    (run [OpSync sampleApi (Some sampleListing);
          OpAddToWatchlist "user-1" 7; OpAddToWatchlist "user-1" 7;
          OpCreateMovie (toInsertMovie (sampleDetails 27205 "Inception"));
          OpRemoveFromWatchlist "user-1" 7] emptyDB).
Proof.
  destruct (consistent_invariant
    [OpSync sampleApi (Some sampleListing);
     OpAddToWatchlist "user-1" 7; OpAddToWatchlist "user-1" 7;
     OpCreateMovie (toInsertMovie (sampleDetails 27205 "Inception"));
     OpRemoveFromWatchlist "user-1" 7] emptyDB) as [H0 H].
  apply H, H0.
Defined.

Lemma exec_ratings (op : Op) (db : DB) :
  ratings (exec op db) = ratings db /\ ratings_seq (exec op db) = ratings_seq db.
Proof.
  destruct op as [movie|id movie|u m|u m|u m|u m|u m r|gd listing]; cbn [exec].
  - destruct (createMovie_frame movie db) as [_ [_ [_ [_ [E5 E6]]]]]. auto.
  - destruct (updateMovie_frame id movie db) as [_ [_ [_ [_ [E5 E6]]]]]. auto.
  - unfold addToWatchlist. destruct (violates _ _ _ _); split; reflexivity.
  - split; reflexivity.
  - unfold addToFavorites. destruct (violates _ _ _ _); split; reflexivity.
  - split; reflexivity.
  - rewrite rateMovie_rejected. split; reflexivity.
  - apply (syncListing_preserves gd
             (fun d => ratings d = ratings db /\ ratings_seq d = ratings_seq db));
      [|split; reflexivity].
    intros movie d [H1 H2].
    destruct (createMovie_frame movie d) as [_ [_ [_ [_ [E5 E6]]]]].
    rewrite E5, E6. auto.
Qed.

(** X23: no operation of the storage layer writes the [ratings] table:
    after any sequence of operations, [rateMovie] included, the table and
    its sequence are as before, so [getUserRating] and [getUserRatings]
    answer as they did at the start (with nothing, from the empty
    database). *)
Theorem ratings_never_written (ops : list Op) (db : DB) (userId : string)
  (movieId : Z) :
  ratings (run ops db) = ratings db /\
  ratings_seq (run ops db) = ratings_seq db /\
  fst (getUserRating userId movieId (run ops db)) =
    fst (getUserRating userId movieId db) /\
  fst (getUserRatings userId (run ops db)) = fst (getUserRatings userId db) /\
  fst (getUserRating userId movieId (run ops emptyDB)) = Ok None /\
  fst (getUserRatings userId (run ops emptyDB)) = Ok [].
Proof.
  assert (H : forall d, ratings (run ops d) = ratings d /\
                        ratings_seq (run ops d) = ratings_seq d).
  { induction ops as [|op ops IH]; intros d; [split; reflexivity|].
    change (run (op :: ops) d) with (run ops (exec op d)).
    destruct (IH (exec op d)) as [H1 H2].
    destruct (exec_ratings op d) as [H3 H4].
    split; congruence. }
  destruct (H db) as [H1 H2]. destruct (H emptyDB) as [H3 _].
  unfold getUserRating, getUserRatings. cbn [fst].
  rewrite H1, H3. repeat split; assumption.
Qed.

(** ** Users *)

Section MapHitTo.
Context {A : Type} (hit : A -> bool) (f : A -> A).
Hypothesis hit_f : forall x, hit x = true -> hit (f x) = true.

Lemma find_map_hit_to (l : list A) :
  find hit (map (fun x => if hit x then f x else x) l) =
  option_map f (find hit l).
Proof.
  induction l as [|x l IH]; simpl; [reflexivity|].
  destruct (hit x) eqn:E.
  - rewrite (hit_f x E). reflexivity.
  - rewrite E. exact IH.
Qed.
End MapHitTo.

Lemma upsertUser_cases (userData : UpsertUser.t) (acc : Accounts.t) :
  let hit := fun u : User.t => String.eqb (User.id u) (UpsertUser.id userData) in
  (emailOfAnother userData acc = true /\
   upsertUser userData acc = (Err UniqueViolation, acc)) \/
  (emailOfAnother userData acc = false /\
   exists row rows,
     upsertUser userData acc =
       (Ok row, Accounts.mk rows (Accounts.userPreferences acc)
                  (Accounts.userPreferences_seq acc) (Accounts.now acc)) /\
     User.id row = UpsertUser.id userData /\
     find hit rows = Some row /\
     ((exists set_,
         existsb hit (Accounts.users acc) = true /\
         rows = map (fun u => if hit u then set_ u else u) (Accounts.users acc) /\
         (forall u, User.id (set_ u) = UpsertUser.id userData) /\
         (forall u, User.email (set_ u) =
                    patched (UpsertUser.email userData) (User.email u))) \/
      (existsb hit (Accounts.users acc) = false /\
       rows = Accounts.users acc ++ [row] /\
       User.email row = patched (UpsertUser.email userData) None))).
Proof.
  intros hit. unfold upsertUser, emailOfAnother. fold hit.
  destruct (find hit (Accounts.users acc)) as [old|] eqn:Efind.
  - match goal with
    | |- context [if ?c then _ else _] => destruct c eqn:Eclash
    end.
    + left. split; reflexivity.
    + right. split; [reflexivity|].
      eexists _, _. split; [reflexivity|]. split; [reflexivity|]. split.
      * etransitivity.
        { apply (find_map_hit_to hit).
          intros x _. unfold hit. cbn. apply String.eqb_refl. }
        rewrite Efind. reflexivity.
      * left. eexists. split; [|split; [reflexivity|split; intros u; reflexivity]].
        apply existsb_exists. apply find_some in Efind. exists old. exact Efind.
  - assert (Hnone : existsb hit (Accounts.users acc) = false)
      by (apply find_none_existsb, Efind).
    assert (Hothers :
      filter (fun u => negb (String.eqb (User.id u) (UpsertUser.id userData)))
             (Accounts.users acc) = Accounts.users acc).
    { apply (filter_negb_absent hit), Efind. }
    rewrite Hothers. cbn [User.email].
    destruct (UpsertUser.email userData) as [[e|]|]; cbn [patched].
    + destruct (emailTaken e (Accounts.users acc)) eqn:Et.
      * left. split; reflexivity.
      * right. split; [reflexivity|].
        eexists _, _. split; [reflexivity|]. split; [reflexivity|]. split.
        { apply find_app_new; [exact Hnone|]. unfold hit. cbn. apply String.eqb_refl. }
        right. repeat split. exact Hnone.
    + right. split; [reflexivity|].
      eexists _, _. split; [reflexivity|]. split; [reflexivity|]. split.
      { apply find_app_new; [exact Hnone|]. unfold hit. cbn. apply String.eqb_refl. }
      right. repeat split. exact Hnone.
    + right. split; [reflexivity|].
      eexists _, _. split; [reflexivity|]. split; [reflexivity|]. split.
      { apply find_app_new; [exact Hnone|]. unfold hit. cbn. apply String.eqb_refl. }
      right. repeat split. exact Hnone.
Qed.

(** X24: [upsertUser] fails exactly when the email it is given belongs to
    a user with another id, and then changes nothing; otherwise it returns
    a row with the id passed, which [getUser] on that id finds
    afterwards, and it leaves the rows of every other user and the
    preferences as they were. *)
Theorem upsertUser_then_getUser (userData : UpsertUser.t) (acc : Accounts.t) :
  if emailOfAnother userData acc
  then upsertUser userData acc = (Err UniqueViolation, acc)
  else exists row acc',
         upsertUser userData acc = (Ok row, acc') /\
         User.id row = UpsertUser.id userData /\
         getUser (UpsertUser.id userData) acc' = (Ok (Some row), acc') /\
         (forall u, In u (Accounts.users acc) ->
                    User.id u <> UpsertUser.id userData ->
                    In u (Accounts.users acc')) /\
         Accounts.userPreferences acc' = Accounts.userPreferences acc.
Proof.
  destruct (upsertUser_cases userData acc) as [[Ht H]|[Ht [row [rows [H [Hid [Hf Hc]]]]]]];
    rewrite Ht; [exact H|].
  eexists _, _. split; [exact H|]. split; [exact Hid|].
  unfold getUser. cbn [Accounts.users]. rewrite Hf.
  split; [reflexivity|]. split; [|reflexivity].
  intros u Hin Hne. destruct Hc as [[set_ [_ [-> _]]]|[_ [-> _]]].
  - apply in_map_iff. exists u. split; [|exact Hin].
    apply String.eqb_neq in Hne. now rewrite Hne.
  - apply in_or_app. now left.
Qed.

Lemma NoDup_snoc {A} (l : list A) (x : A) :
  NoDup l -> ~ In x l -> NoDup (l ++ [x]).
Proof.
  intros Hnd Hx. apply Permutation_NoDup with (x :: l).
  - apply Permutation_cons_append.
  - constructor; assumption.
Qed.

Lemma emailTaken_In (e : string) (l : list User.t) :
  In e (emailsOf l) -> emailTaken e l = true.
Proof.
  unfold emailsOf, emailTaken. intros H. apply in_flat_map in H.
  destruct H as [u [Hu He]]. apply existsb_exists. exists u. split; [exact Hu|].
  destruct (User.email u) as [e'|]; [|contradiction].
  destruct He as [->|[]]. apply String.eqb_refl.
Qed.

Section EmailsUpdate.
Context (hit : User.t -> bool) (g : User.t -> User.t).

Lemma emailsOf_cons (a : User.t) (l : list User.t) :
  emailsOf (a :: l) =
  match User.email a with Some e => [e] | None => [] end ++ emailsOf l.
Proof. reflexivity. Qed.

Lemma emails_update_keep (l : list User.t) :
  (forall u, User.email (g u) = User.email u) ->
  emailsOf (map (fun u => if hit u then g u else u) l) = emailsOf l.
Proof.
  intros Hg. induction l as [|a l IH]; [reflexivity|].
  cbn [map]. rewrite !emailsOf_cons, IH.
  destruct (hit a); [rewrite Hg|]; reflexivity.
Qed.

Lemma emails_update_In (new : option string) (l : list User.t) (y : string) :
  (forall u, User.email (g u) = new) ->
  In y (emailsOf (map (fun u => if hit u then g u else u) l)) ->
  In y (emailsOf l) \/ new = Some y.
Proof.
  intros Hg. induction l as [|a l IH]; [intros []|].
  cbn [map]. rewrite !emailsOf_cons. intros H. apply in_app_or in H.
  destruct H as [H|H].
  - destruct (hit a).
    + rewrite Hg in H. destruct new as [e|]; [|contradiction].
      destruct H as [->|[]]. now right.
    + left. apply in_or_app. now left.
  - destruct (IH H) as [H'|H']; [left; apply in_or_app; now right | now right].
Qed.

Lemma emails_update_none (l : list User.t) :
  (forall u, User.email (g u) = None) ->
  NoDup (emailsOf l) ->
  NoDup (emailsOf (map (fun u => if hit u then g u else u) l)).
Proof.
  intros Hg. induction l as [|a l IH]; intros Hnd; [constructor|].
  cbn [map]. rewrite emailsOf_cons in *.
  assert (Hl : NoDup (emailsOf l)) by (apply NoDup_app_remove_l in Hnd; exact Hnd).
  destruct (hit a).
  - rewrite Hg. apply IH, Hl.
  - destruct (User.email a) as [x|]; [|apply IH, Hl].
    cbn [app] in *. inversion Hnd as [|? ? Hx _]; subst.
    constructor; [|apply IH, Hl].
    intros Hin. apply (emails_update_In None) in Hin; [|exact Hg].
    destruct Hin as [Hin|Hin]; [contradiction | discriminate].
Qed.
End EmailsUpdate.

Lemma emails_update_some (k e : string) (g : User.t -> User.t) (l : list User.t) :
  (forall u, User.email (g u) = Some e) ->
  NoDup (map User.id l) ->
  NoDup (emailsOf l) ->
  emailTaken e (filter (fun u => negb (String.eqb (User.id u) k)) l) = false ->
  NoDup (emailsOf (map (fun u => if String.eqb (User.id u) k then g u else u) l)).
Proof.
  intros Hg. induction l as [|a l IH]; intros Hids Hnd Ht; [constructor|].
  inversion Hids as [|? ? Hnotin Hids']; subst.
  cbn [map filter] in *. rewrite emailsOf_cons in *.
  assert (Hl : NoDup (emailsOf l)) by (apply NoDup_app_remove_l in Hnd; exact Hnd).
  destruct (String.eqb_spec (User.id a) k) as [Ek|Ek].
  - cbn [negb] in Ht.
    assert (Hnone : existsb (fun u => String.eqb (User.id u) k) l = false).
    { destruct (existsb _ l) eqn:Ex; [|reflexivity].
      apply existsb_exists in Ex. destruct Ex as [u [Hu Hk]].
      apply String.eqb_eq in Hk. exfalso. apply Hnotin.
      rewrite Ek, <- Hk. apply in_map, Hu. }
    rewrite (map_no_hit _ g l Hnone), Hg.
    rewrite (filter_negb_absent _ l (find_none_of_existsb _ l Hnone)) in Ht.
    cbn [app]. constructor; [|exact Hl].
    intros Hin. apply emailTaken_In in Hin. congruence.
  - cbn [negb] in Ht. cbn [emailTaken existsb] in Ht.
    apply orb_false_iff in Ht. destruct Ht as [Ha Ht].
    specialize (IH Hids' Hl Ht).
    destruct (User.email a) as [x|]; [|exact IH].
    cbn [app] in *. inversion Hnd as [|? ? Hx _]; subst.
    constructor; [|exact IH].
    intros Hin.
    apply (emails_update_In (fun u => String.eqb (User.id u) k) g (Some e)) in Hin;
      [|exact Hg].
    destruct Hin as [Hin|Hin]; [contradiction|].
    inversion Hin; subst. rewrite String.eqb_refl in Ha. discriminate.
Qed.

(** X25: [upsertUser] keeps the [users] table well-formed: if no two
    users share an id or an email before the call, none do after it,
    whether the call inserts, updates or is rejected. *)
Theorem upsertUser_keeps_users_unique (userData : UpsertUser.t) (acc : Accounts.t) :
  usersOk acc -> usersOk (snd (upsertUser userData acc)).
Proof.
  intros [Hids Hem].
  destruct (upsertUser_cases userData acc)
    as [[_ H]|[Ht [row [rows [H [Hid [_ Hc]]]]]]]; rewrite H; cbn [snd];
    [split; assumption|].
  unfold usersOk. cbn [Accounts.users].
  destruct Hc as [[set_ [_ [-> [Hsid Hsem]]]]|[Hnone [-> Hrow]]].
  - split.
    + replace (map User.id (map _ (Accounts.users acc)))
        with (map User.id (Accounts.users acc)); [exact Hids|].
      rewrite map_map. apply map_ext. intros u. cbn beta.
      destruct (String.eqb_spec (User.id u) (UpsertUser.id userData)) as [E|_];
        [|reflexivity].
      rewrite Hsid. exact E.
    + unfold emailOfAnother in Ht.
      destruct (UpsertUser.email userData) as [[e|]|] eqn:Ee.
      * apply (emails_update_some (UpsertUser.id userData) e); assumption.
      * apply emails_update_none; [|exact Hem].
        intros u. rewrite Hsem. reflexivity.
      * rewrite emails_update_keep; [exact Hem|].
        intros u. rewrite Hsem. reflexivity.
  - assert (Hfilter :
      filter (fun u => negb (String.eqb (User.id u) (UpsertUser.id userData)))
             (Accounts.users acc) = Accounts.users acc).
    { apply (filter_negb_absent (fun u => String.eqb (User.id u) (UpsertUser.id userData))).
      apply find_none_of_existsb, Hnone. }
    split.
    + rewrite map_app. cbn [map]. apply NoDup_snoc; [exact Hids|].
      intros Hin. apply in_map_iff in Hin. destruct Hin as [u [Hu Hin]].
      assert (existsb (fun u => String.eqb (User.id u) (UpsertUser.id userData))
                      (Accounts.users acc) = true).
      { apply existsb_exists. exists u. split; [exact Hin|].
        rewrite Hu, Hid. apply String.eqb_refl. }
      congruence.
    + unfold emailsOf. rewrite flat_map_app. cbn [flat_map]. rewrite app_nil_r, Hrow.
      unfold emailOfAnother in Ht. rewrite Hfilter in Ht.
      destruct (UpsertUser.email userData) as [[e|]|]; cbn [patched];
        try (rewrite app_nil_r; exact Hem).
      apply NoDup_snoc; [exact Hem|].
      intros Hin. apply emailTaken_In in Hin. congruence.
Qed.

Lemma upsertUser_keeps_users_unique_witness :
  usersOk (snd (upsertUser (sampleUser "user-2" "ada@example.org") oneUser)) /\
  fst (upsertUser (sampleUser "user-2" "ada@example.org") oneUser) =
    Err UniqueViolation.
Proof.
  split; [|reflexivity].
  apply (upsertUser_keeps_users_unique (sampleUser "user-2" "ada@example.org") oneUser).
  split; repeat constructor; simpl; intuition.
Defined.

(** ** User preferences *)

Lemma updateUserPreferences_update (userId : string) (preferences : PreferencesPatch.t)
  (acc : Accounts.t) (old : UserPreferences.t) :
  let uid := patched (PreferencesPatch.userId preferences) userId in
  let hit := fun r : UserPreferences.t => String.eqb (UserPreferences.userId r) uid in
  find hit (Accounts.userPreferences acc) = Some old ->
  exists set_,
    updateUserPreferences userId preferences acc =
      (Ok (set_ old),
       Accounts.mk (Accounts.users acc)
         (map (fun r => if hit r then set_ r else r) (Accounts.userPreferences acc))
         (Accounts.userPreferences_seq acc + 1) (Accounts.now acc)) /\
    (forall r, UserPreferences.id (set_ r) = UserPreferences.id r) /\
    (forall r, UserPreferences.userId (set_ r) = UserPreferences.userId r) /\
    (forall r, UserPreferences.createdAt (set_ r) = UserPreferences.createdAt r) /\
    (forall r, UserPreferences.updatedAt (set_ r) = Some (Accounts.now acc)) /\
    (forall r, UserPreferences.preferredGenres (set_ r) =
               patched (PreferencesPatch.preferredGenres preferences)
                       (UserPreferences.preferredGenres r)) /\
    (forall r, UserPreferences.preferredLanguages (set_ r) =
               patched (PreferencesPatch.preferredLanguages preferences)
                       (UserPreferences.preferredLanguages r)) /\
    (forall r, UserPreferences.ageRating (set_ r) =
               patched (PreferencesPatch.ageRating preferences)
                       (UserPreferences.ageRating r)).
Proof.
  intros uid hit Hfind. unfold updateUserPreferences. fold uid. fold hit.
  rewrite Hfind.
  exists (fun r =>
    UserPreferences.mk (UserPreferences.id r) (UserPreferences.userId r)
      (patched (PreferencesPatch.preferredGenres preferences)
               (UserPreferences.preferredGenres r))
      (patched (PreferencesPatch.preferredLanguages preferences)
               (UserPreferences.preferredLanguages r))
      (patched (PreferencesPatch.ageRating preferences)
               (UserPreferences.ageRating r))
      (UserPreferences.createdAt r)
      (Some (Accounts.now acc))).
  split; [reflexivity|]. repeat split.
Qed.

Lemma updateUserPreferences_insert (userId : string) (preferences : PreferencesPatch.t)
  (acc : Accounts.t) :
  let uid := patched (PreferencesPatch.userId preferences) userId in
  let hit := fun r : UserPreferences.t => String.eqb (UserPreferences.userId r) uid in
  find hit (Accounts.userPreferences acc) = None ->
  preferencesFresh acc = true ->
  exists row,
    updateUserPreferences userId preferences acc =
      (Ok row,
       Accounts.mk (Accounts.users acc) (Accounts.userPreferences acc ++ [row])
         (Accounts.userPreferences_seq acc + 1) (Accounts.now acc)) /\
    UserPreferences.id row = Accounts.userPreferences_seq acc /\
    UserPreferences.userId row = uid /\
    UserPreferences.preferredGenres row =
      patched (PreferencesPatch.preferredGenres preferences) None /\
    UserPreferences.preferredLanguages row =
      patched (PreferencesPatch.preferredLanguages preferences) None /\
    UserPreferences.ageRating row =
      patched (PreferencesPatch.ageRating preferences) None.
Proof.
  intros uid hit Hfind Hfresh. unfold updateUserPreferences. fold uid. fold hit.
  rewrite Hfind.
  assert (Hnone : existsb (fun r => UserPreferences.id r =? Accounts.userPreferences_seq acc)
                          (Accounts.userPreferences acc) = false).
  { revert Hfresh. unfold preferencesFresh.
    apply existsb_false_of_forallb. intros r Hr. lia. }
  rewrite Hnone. eexists. split; [reflexivity|]. repeat split.
Qed.

(** X26: with one preferences row per user and ids from the sequence,
    [updateUserPreferences] always succeeds and keeps it so: the row it
    returns belongs to the user id of [preferences] when present and to
    the [userId] parameter otherwise, [getUserPreferences] on that user
    finds it afterwards, there is still one row per user, and the users
    are untouched. *)
Theorem updateUserPreferences_upserts (userId : string)
  (preferences : PreferencesPatch.t) (acc : Accounts.t) :
  preferencesOk acc ->
  exists row acc',
    updateUserPreferences userId preferences acc = (Ok row, acc') /\
    UserPreferences.userId row = patched (PreferencesPatch.userId preferences) userId /\
    getUserPreferences (patched (PreferencesPatch.userId preferences) userId) acc' =
      (Ok (Some row), acc') /\
    preferencesOk acc' /\
    Accounts.users acc' = Accounts.users acc.
Proof.
  intros [Hfresh Hnd].
  set (uid := patched (PreferencesPatch.userId preferences) userId).
  set (hit := fun r : UserPreferences.t => String.eqb (UserPreferences.userId r) uid).
  destruct (find hit (Accounts.userPreferences acc)) as [old|] eqn:Efind.
  - destruct (updateUserPreferences_update userId preferences acc old Efind)
      as [set_ [H [Hid [Huid _]]]].
    fold uid in H. fold hit in H.
    eexists _, _. split; [exact H|].
    assert (Hold : UserPreferences.userId old = uid).
    { apply find_some in Efind. destruct Efind as [_ E]. now apply String.eqb_eq in E. }
    split; [rewrite Huid; exact Hold|]. split; [|split; [|reflexivity]].
    + unfold getUserPreferences. cbn [Accounts.userPreferences]. fold hit.
      rewrite (find_map_hit hit set_), Efind; [reflexivity|].
      intros r. unfold hit. now rewrite Huid.
    + split.
      * unfold preferencesFresh. cbn [Accounts.userPreferences Accounts.userPreferences_seq].
        rewrite forallb_map_compose. revert Hfresh. apply forallb_impl.
        intros r Hr. cbn beta. unfold hit.
        destruct (String.eqb (UserPreferences.userId r) uid); [rewrite Hid|]; lia.
      * cbn [Accounts.userPreferences].
        replace (map UserPreferences.userId (map _ (Accounts.userPreferences acc)))
          with (map UserPreferences.userId (Accounts.userPreferences acc)); [exact Hnd|].
        rewrite map_map. apply map_ext. intros r. cbn beta.
        unfold hit. destruct (String.eqb (UserPreferences.userId r) uid);
          [now rewrite Huid | reflexivity].
  - destruct (updateUserPreferences_insert userId preferences acc Efind Hfresh)
      as [row [H [Hid [Huid _]]]].
    fold uid in H, Huid.
    assert (Hnone : existsb hit (Accounts.userPreferences acc) = false)
      by (apply find_none_existsb, Efind).
    eexists _, _. split; [exact H|]. split; [exact Huid|].
    split; [|split; [|reflexivity]].
    + unfold getUserPreferences. cbn [Accounts.userPreferences]. fold hit.
      rewrite find_app_new; [reflexivity | exact Hnone |].
      unfold hit. rewrite Huid. apply String.eqb_refl.
    + split.
      * unfold preferencesFresh. cbn [Accounts.userPreferences Accounts.userPreferences_seq].
        rewrite forallb_app. apply andb_true_iff. split.
        -- revert Hfresh. apply forallb_impl. intros r Hr. lia.
        -- cbn. rewrite Hid, andb_true_r. lia.
      * cbn [Accounts.userPreferences]. rewrite map_app. cbn [map].
        apply NoDup_snoc; [exact Hnd|].
        intros Hin. apply in_map_iff in Hin. destruct Hin as [r [Hr Hin]].
        assert (existsb hit (Accounts.userPreferences acc) = true).
        { apply existsb_exists. exists r. split; [exact Hin|].
          unfold hit. rewrite Hr, Huid. apply String.eqb_refl. }
        congruence.
Qed.

Lemma updateUserPreferences_upserts_witness :
  exists row acc',
    updateUserPreferences "user-1" (genresPatch [28; 12]) onePreference = (Ok row, acc') /\
    getUserPreferences "user-1" acc' = (Ok (Some row), acc') /\
    preferencesOk acc'.
Proof.
  destruct (updateUserPreferences_upserts "user-1" (genresPatch [28; 12]) onePreference)
    as [row [acc' [H [_ [Hget [Hok _]]]]]].
  - split; [reflexivity|]. repeat constructor. simpl. intuition.
  - exists row, acc'. repeat split; try assumption; apply Hok.
Defined.

(** X27: an update is partial: when the user has a preferences row, the
    returned row keeps its id and creation time, takes each field from
    [preferences] when the key is present and keeps the old value when it
    is absent, gets the current time as update time, and the rows of the
    other users are unchanged and none is added. *)
Theorem updateUserPreferences_partial (userId : string)
  (preferences : PreferencesPatch.t) (acc : Accounts.t) (old : UserPreferences.t) :
  find (fun r => String.eqb (UserPreferences.userId r)
                   (patched (PreferencesPatch.userId preferences) userId))
       (Accounts.userPreferences acc) = Some old ->
  exists row acc',
    updateUserPreferences userId preferences acc = (Ok row, acc') /\
    UserPreferences.id row = UserPreferences.id old /\
    UserPreferences.createdAt row = UserPreferences.createdAt old /\
    UserPreferences.updatedAt row = Some (Accounts.now acc) /\
    UserPreferences.preferredGenres row =
      patched (PreferencesPatch.preferredGenres preferences)
              (UserPreferences.preferredGenres old) /\
    UserPreferences.preferredLanguages row =
      patched (PreferencesPatch.preferredLanguages preferences)
              (UserPreferences.preferredLanguages old) /\
    UserPreferences.ageRating row =
      patched (PreferencesPatch.ageRating preferences)
              (UserPreferences.ageRating old) /\
    List.length (Accounts.userPreferences acc') =
      List.length (Accounts.userPreferences acc) /\
    (forall r, In r (Accounts.userPreferences acc) ->
               UserPreferences.userId r <>
                 patched (PreferencesPatch.userId preferences) userId ->
               In r (Accounts.userPreferences acc')).
Proof.
  intros Hfind.
  destruct (updateUserPreferences_update userId preferences acc old Hfind)
    as [set_ [H [Hid [Huid [Hc [Hu [Hg [Hl Ha]]]]]]]].
  eexists _, _. split; [exact H|].
  cbn [Accounts.userPreferences].
  repeat split; auto.
  - apply length_map.
  - intros r Hin Hne. apply in_map_iff. exists r. split; [|exact Hin].
    apply String.eqb_neq in Hne. now rewrite Hne.
Qed.

Lemma updateUserPreferences_partial_witness :
  exists row acc',
    updateUserPreferences "user-1" (genresPatch [28; 12]) onePreference = (Ok row, acc') /\
    UserPreferences.preferredGenres row = Some [28; 12] /\
    UserPreferences.preferredLanguages row = Some ["en"].
Proof.
  destruct (updateUserPreferences_partial "user-1" (genresPatch [28; 12]) onePreference
              (UserPreferences.mk 1 "user-1" (Some [18]) (Some ["en"]) None (Some 0) (Some 0))
              eq_refl)
    as [row [acc' [H [_ [_ [_ [Hg [Hl _]]]]]]]].
  exists row, acc'. repeat split; assumption.
Defined.

(** X28: through [POST /api/preferences] a user reaches only their own
    row: whatever user id the body carries, the rows of all other users
    are still in the table afterwards, unchanged, and a row that is
    returned belongs to the session's user. *)
Theorem postPreferences_own_row_only (userId : string) (body : PreferencesPatch.t)
  (acc : Accounts.t) :
  (forall r, In r (Accounts.userPreferences acc) ->
             UserPreferences.userId r <> userId ->
             In r (Accounts.userPreferences (snd (postPreferences userId body acc)))) /\
  match fst (postPreferences userId body acc) with
  | Ok row => UserPreferences.userId row = userId
  | Err e => e = UniqueViolation
  end.
Proof.
  unfold postPreferences, updateUserPreferences.
  cbn [PreferencesPatch.userId patched].
  set (hit := fun r : UserPreferences.t => String.eqb (UserPreferences.userId r) userId).
  destruct (find hit (Accounts.userPreferences acc)) as [old|] eqn:Efind.
  - cbn [fst snd Accounts.userPreferences UserPreferences.userId]. split.
    + intros r Hin Hne. apply in_map_iff. exists r. split; [|exact Hin].
      unfold hit. apply String.eqb_neq in Hne. now rewrite Hne.
    + apply find_some in Efind. destruct Efind as [_ E]. now apply String.eqb_eq in E.
  - destruct (existsb _ (Accounts.userPreferences acc));
      cbn [fst snd Accounts.userPreferences UserPreferences.userId].
    + split; [auto | reflexivity].
    + split; [|reflexivity]. intros r Hin _. apply in_or_app. now left.
Qed.

(** ** The trailer lookup *)

(** [find] returns the first element that satisfies the test. *)
Lemma find_first {A} (p : A -> bool) (l : list A) (v : A) :
  find p l = Some v ->
  exists before after,
    l = before ++ v :: after /\ p v = true /\
    forall w, In w before -> p w = false.
Proof.
  induction l as [|x l IH]; simpl; [discriminate|].
  destruct (p x) eqn:E.
  - intros H. inversion H; subst. exists [], l.
    split; [reflexivity|]. split; [exact E|]. intros w [].
  - intros H. destruct (IH H) as [before [after [-> [Hv Hb]]]].
    exists (x :: before), after. split; [reflexivity|]. split; [exact Hv|].
    intros w [<-|Hw]; [exact E | apply Hb, Hw].
Qed.

Lemma pickTrailer_some (results : list TMDBVideo.t) (v : TMDBVideo.t) :
  pickTrailer results = Some v ->
  exists before after,
    results = before ++ v :: after /\
    youtubeTrailer v = true /\
    ((TMDBVideo.official v = true /\
      forall w, In w before -> officialYoutubeTrailer w = false) \/
     ((forall w, In w results -> officialYoutubeTrailer w = false) /\
      forall w, In w before -> youtubeTrailer w = false)).
Proof.
  unfold pickTrailer.
  destruct (find officialYoutubeTrailer results) as [o|] eqn:Eo.
  - intros H. inversion H; subst.
    destruct (find_first _ _ _ Eo) as [before [after [E [Ho Hb]]]].
    exists before, after. split; [exact E|].
    unfold officialYoutubeTrailer in Ho. apply andb_true_iff in Ho.
    destruct Ho as [Hy Hoff]. split; [exact Hy|]. left. split; assumption.
  - intros H.
    destruct (find_first _ _ _ H) as [before [after [E [Hy Hb]]]].
    exists before, after. split; [exact E|]. split; [exact Hy|]. right.
    split; [|exact Hb]. intros w Hw. apply (find_none _ _ Eo w Hw).
Qed.

Lemma pickTrailer_none (results : list TMDBVideo.t) :
  pickTrailer results = None ->
  forall v, In v results -> youtubeTrailer v = false.
Proof.
  unfold pickTrailer.
  destruct (find officialYoutubeTrailer results); [discriminate|].
  intros H v Hv. apply (find_none _ _ H v Hv).
Qed.

(** X29: [getYouTubeTrailer] and [getYouTubeEmbedUrl] pick the same
    video: the first official YouTube trailer in the results of the
    request or, when the results hold no official one, the first YouTube
    trailer; the two URLs are the watch and the embed address of its key.
    Both return null exactly when the request failed or no result is a
    YouTube trailer; a failed request is not an error for the caller.  In
    the sample results the official trailer "ghi" is picked although the
    trailer "def", which is not official, comes before it. *)
Theorem youtube_trailer_choice (getMovieVideos : Z -> option (list TMDBVideo.t))
  (movieId : Z) :
  match getYouTubeTrailer getMovieVideos movieId with
  | Some url =>
      exists before v after,
        getMovieVideos movieId = Some (before ++ v :: after) /\
        youtubeTrailer v = true /\
        ((TMDBVideo.official v = true /\
          forall w, In w before -> officialYoutubeTrailer w = false) \/
         ((forall w, In w (before ++ v :: after) ->
                     officialYoutubeTrailer w = false) /\
          forall w, In w before -> youtubeTrailer w = false)) /\
        url = ("https://www.youtube.com/watch?v=" ++ TMDBVideo.key v)%string /\
        getYouTubeEmbedUrl getMovieVideos movieId =
          Some ("https://www.youtube.com/embed/" ++ TMDBVideo.key v)%string
  | None =>
      getYouTubeEmbedUrl getMovieVideos movieId = None /\
      (getMovieVideos movieId = None \/
       exists results,
         getMovieVideos movieId = Some results /\
         forall v, In v results -> youtubeTrailer v = false)
  end /\
  getYouTubeTrailer sampleVideos 27205 =
    Some "https://www.youtube.com/watch?v=ghi" /\
  getYouTubeEmbedUrl sampleVideos 27205 =
    Some "https://www.youtube.com/embed/ghi".
Proof.
  split; [|split; reflexivity].
  unfold getYouTubeTrailer, getYouTubeEmbedUrl, trailerWith.
  destruct (getMovieVideos movieId) as [results|]; [|split; [reflexivity | now left]].
  destruct (pickTrailer results) as [v|] eqn:E.
  - destruct (pickTrailer_some results v E) as [before [after [-> [Hy Hc]]]].
    exists before, v, after. repeat apply conj; try reflexivity; assumption.
  - split; [reflexivity|]. right. exists results. split; [reflexivity|].
    apply pickTrailer_none, E.
Qed.
